(** * Soft-body car rig: vehicle rig, mass-spring bumper and control mapper

    A shallow embedding of the canonical variant of the rig (the
    hinge + point-to-point suspension variant with cylindrical wheels):
    [PhysicsWorld] as in js/physics.js (the variant that offers
    [createWheelBody] and [addHingeConstraint]) and the [Car] class that
    uses those helpers.  The sources also hold older variants of both
    classes (sphere wheels, hinge only); they share the steering code and
    [createSoftBody] with this one and differ in driving, braking and reset.

    Numbers.  JavaScript numbers are IEEE doubles.  Rounding is abstracted:
    every quantity of the rig is a real number ([R]).  The one place where
    the code itself tests for a non-number, the [deltaTime] argument of the
    two [update] methods, is a [JSNumber]: either [NaN] or a real.  The
    frame driver computes [Math.min((time - lastTime) / 1000, 0.1)], which
    is [NaN] or finite, so no infinity reaches these methods.

    The physics engine (cannon.js) and the renderer (three.js) are external.
    Their vector and quaternion helpers are modelled in [CANNON] by the
    formulas the engine documents; the integrator itself stays abstract. *)

From Stdlib Require Import Reals Lra Lia List Bool Arith String Ascii FinFun.
Import ListNotations.
Open Scope R_scope.

(** ** JavaScript numbers at the [update] boundary *)

Inductive JSNumber : Type :=
| NaN
| Num (r : R).

Definition isNaN (d : JSNumber) : bool :=
  match d with NaN => true | Num _ => false end.

(** [d <= 0]; every comparison with [NaN] is false. *)
Definition js_le0 (d : JSNumber) : bool :=
  match d with
  | NaN => false
  | Num r => if Rle_dec r 0 then true else false
  end.

(** ** Arrays *)

Section Arrays.
Context {A B : Type}.

(** [l[i] = f(l[i])]; nothing happens past the end (JavaScript raises a
    TypeError when the rig reads a field of [undefined]; the arrays of a
    constructed rig are never that short). *)
Fixpoint update_at (i : nat) (f : A -> A) (l : list A) : list A :=
  match l, i with
  | [], _ => []
  | a :: t, O => f a :: t
  | a :: t, S k => a :: update_at k f t
  end.

Fixpoint mapi_from (k : nat) (f : nat -> A -> B) (l : list A) : list B :=
  match l with
  | [] => []
  | a :: t => f k a :: mapi_from (S k) f t
  end.

(** [for (let i = 0; i < l.length; i++) out[i] = f(i, l[i])] *)
Definition mapi (f : nat -> A -> B) (l : list A) : list B := mapi_from 0 f l.
End Arrays.

(** ** The engine's value types (cannon.js) *)

Module CANNON.

Record Vec3 : Type := mkVec3 { x : R; y : R; z : R }.

Record Quaternion : Type := mkQuaternion { qx : R; qy : R; qz : R; qw : R }.

Definition zero : Vec3 := mkVec3 0 0 0.

Definition vadd (a b : Vec3) : Vec3 :=
  mkVec3 (a.(x) + b.(x)) (a.(y) + b.(y)) (a.(z) + b.(z)).

Definition vsub (a b : Vec3) : Vec3 :=
  mkVec3 (a.(x) - b.(x)) (a.(y) - b.(y)) (a.(z) - b.(z)).

Definition cross (a b : Vec3) : Vec3 :=
  mkVec3 (a.(y) * b.(z) - a.(z) * b.(y))
         (a.(z) * b.(x) - a.(x) * b.(z))
         (a.(x) * b.(y) - a.(y) * b.(x)).

(** [v.scale(s)] *)
Definition scale (v : Vec3) (s : R) : Vec3 :=
  mkVec3 (s * v.(x)) (s * v.(y)) (s * v.(z)).

(** [v.length()] *)
Definition norm (v : Vec3) : R :=
  sqrt (v.(x) * v.(x) + v.(y) * v.(y) + v.(z) * v.(z)).

(** [a.distanceTo(b)]: the Euclidean distance. *)
Definition distanceTo (a b : Vec3) : R :=
  sqrt ((b.(x) - a.(x)) * (b.(x) - a.(x))
        + (b.(y) - a.(y)) * (b.(y) - a.(y))
        + (b.(z) - a.(z)) * (b.(z) - a.(z))).

Definition identity : Quaternion := mkQuaternion 0 0 0 1.

(** [q.setFromAxisAngle(axis, angle)] *)
Definition setFromAxisAngle (axis : Vec3) (angle : R) : Quaternion :=
  let s := sin (angle * 0.5) in
  mkQuaternion (axis.(x) * s) (axis.(y) * s) (axis.(z) * s) (cos (angle * 0.5)).

(** [a.mult(b)] *)
Definition mult (a b : Quaternion) : Quaternion :=
  mkQuaternion
    (a.(qx) * b.(qw) + a.(qw) * b.(qx) + a.(qy) * b.(qz) - a.(qz) * b.(qy))
    (a.(qy) * b.(qw) + a.(qw) * b.(qy) + a.(qz) * b.(qx) - a.(qx) * b.(qz))
    (a.(qz) * b.(qw) + a.(qw) * b.(qz) + a.(qx) * b.(qy) - a.(qy) * b.(qx))
    (a.(qw) * b.(qw) - a.(qx) * b.(qx) - a.(qy) * b.(qy) - a.(qz) * b.(qz)).

(** [q.vmult(v)]: the vector [v] rotated by [q]. *)
Definition vmult (q : Quaternion) (v : Vec3) : Vec3 :=
  let ix := q.(qw) * v.(x) + q.(qy) * v.(z) - q.(qz) * v.(y) in
  let iy := q.(qw) * v.(y) + q.(qz) * v.(x) - q.(qx) * v.(z) in
  let iz := q.(qw) * v.(z) + q.(qx) * v.(y) - q.(qy) * v.(x) in
  let iw := - q.(qx) * v.(x) - q.(qy) * v.(y) - q.(qz) * v.(z) in
  mkVec3 (ix * q.(qw) + iw * - q.(qx) + iy * - q.(qz) - iz * - q.(qy))
         (iy * q.(qw) + iw * - q.(qy) + iz * - q.(qx) - ix * - q.(qz))
         (iz * q.(qw) + iw * - q.(qz) + ix * - q.(qy) - iy * - q.(qx)).

(** A rigid body, with the fields the rig reads or writes.  [force] and
    [torque] are the accumulators that [applyForce] adds to and that the
    integrator consumes. *)
Record Body : Type := mkBody {
  mass : R;
  position : Vec3;
  quaternion : Quaternion;
  velocity : Vec3;
  angularVelocity : Vec3;
  force : Vec3;
  torque : Vec3;
  angularDamping : R;
  linearDamping : R
}.

(** [new CANNON.Body({mass, position})] with the engine's defaults. *)
Definition newBody (m : R) (p : Vec3) : Body :=
  mkBody m p identity zero zero zero zero 0.01 0.01.

Definition set_position (p : Vec3) (b : Body) : Body :=
  mkBody b.(mass) p b.(quaternion) b.(velocity) b.(angularVelocity)
         b.(force) b.(torque) b.(angularDamping) b.(linearDamping).

Definition set_quaternion (q : Quaternion) (b : Body) : Body :=
  mkBody b.(mass) b.(position) q b.(velocity) b.(angularVelocity)
         b.(force) b.(torque) b.(angularDamping) b.(linearDamping).

Definition set_velocity (v : Vec3) (b : Body) : Body :=
  mkBody b.(mass) b.(position) b.(quaternion) v b.(angularVelocity)
         b.(force) b.(torque) b.(angularDamping) b.(linearDamping).

Definition set_angularVelocity (v : Vec3) (b : Body) : Body :=
  mkBody b.(mass) b.(position) b.(quaternion) b.(velocity) v
         b.(force) b.(torque) b.(angularDamping) b.(linearDamping).

Definition set_angularDamping (d : R) (b : Body) : Body :=
  mkBody b.(mass) b.(position) b.(quaternion) b.(velocity) b.(angularVelocity)
         b.(force) b.(torque) d b.(linearDamping).

Definition set_linearDamping (d : R) (b : Body) : Body :=
  mkBody b.(mass) b.(position) b.(quaternion) b.(velocity) b.(angularVelocity)
         b.(force) b.(torque) b.(angularDamping) d.

(** [body.applyForce(f, worldPoint)]: adds [f] to the force accumulator
    and the moment of [f] about the centre of mass to the torque
    accumulator. *)
Definition applyForce (f worldPoint : Vec3) (b : Body) : Body :=
  mkBody b.(mass) b.(position) b.(quaternion) b.(velocity) b.(angularVelocity)
         (vadd b.(force) f)
         (vadd b.(torque) (cross (vsub worldPoint b.(position)) f))
         b.(angularDamping) b.(linearDamping).

(** [new CANNON.Spring(bodyA, bodyB, {restLength, stiffness, damping})].
    The two bodies are named by their index in the soft body's particle
    array. *)
Record Spring : Type := mkSpring {
  bodyA : nat;
  bodyB : nat;
  restLength : R;
  stiffness : R;
  damping : R
}.

End CANNON.

(** ** The renderer's meshes (three.js): only the transform is tracked *)

Module THREE.
Record Mesh : Type := mkMesh {
  position : CANNON.Vec3;
  quaternion : CANNON.Quaternion
}.

Definition newMesh : Mesh := mkMesh CANNON.zero CANNON.identity.
End THREE.

(** [cannonToThreeVector] of js/utils.js copies the three coordinates. *)
Definition cannonToThreeVector (v : CANNON.Vec3) : CANNON.Vec3 :=
  CANNON.mkVec3 v.(CANNON.x) v.(CANNON.y) v.(CANNON.z).

(** ** PhysicsWorld (js/physics.js) *)

Module PhysicsWorld.
Import CANNON.

(** A body of [this.bodies] together with its [userData.mesh], if any. *)
Record Tracked : Type := mkTracked {
  body : Body;
  userData : option THREE.Mesh
}.

(** [this.bodies], and the springs whose [applyForce] was registered as a
    [postStep] listener of the engine's world. *)
Record t : Type := mkWorld {
  bodies : list Tracked;
  postStep : list Spring
}.

Definition empty : t := mkWorld [] [].

(** [{ bodies, constraints }], the value [createSoftBody] returns; its
    [bodies] field is [particles] here, [bodies] being taken by the world. *)
Record SoftBody : Type := mkSoftBody {
  particles : list Body;
  constraints : list Spring
}.

(** [addBody(body, mesh)] *)
Definition addBody (b : Body) (mesh : option THREE.Mesh) (w : t) : Body * t :=
  (b, mkWorld (w.(bodies) ++ [mkTracked b mesh]) w.(postStep)).

(** [createWheelBody(radius, width, position, mass = 30)]: the shape takes
    [radius] and [width]; the body starts rotated a quarter turn about Z. *)
Definition wheelQuat : Quaternion := setFromAxisAngle (mkVec3 0 0 1) (PI / 2).

Definition createWheelBody (radius width : R) (pos : Vec3) (w : t) : Body * t :=
  let wheelBody :=
    mkBody 30 (mkVec3 pos.(x) pos.(y) pos.(z)) wheelQuat zero zero zero zero 0.2 0.01 in
  addBody wheelBody None w.

Definition noBody : Body := newBody 0 zero.

(** The inner loop of [createSoftBody] for one [i]:
    [for (let j = i + 1; j < bodies.length; j++)]. *)
Definition springsFrom (bs : list Body) (k d : R) (i : nat) : list Spring :=
  map (fun j =>
         let bodyA := nth i bs noBody in
         let bodyB := nth j bs noBody in
         let restLength := distanceTo bodyA.(position) bodyB.(position) in
         mkSpring i j restLength k d)
      (seq (S i) (List.length bs - S i)).

(** The outer loop: [for (let i = 0; i < bodies.length; i++)]. *)
Definition createSprings (bs : list Body) (k d : R) : list Spring :=
  flat_map (springsFrom bs k d) (seq 0 (List.length bs)).

(** [createSoftBody(positions, mass, stiffness, damping)] *)
Definition createSoftBody (positions : list Vec3) (m k d : R) (w : t)
  : SoftBody * t :=
  let bs :=
    map (fun pos => newBody (m / INR (List.length positions))
                            (mkVec3 pos.(x) pos.(y) pos.(z)))
        positions in
  let w1 := fold_left (fun acc b => snd (addBody b None acc)) bs w in
  let cs := createSprings bs k d in
  (mkSoftBody bs cs, mkWorld w1.(bodies) (w1.(postStep) ++ cs)).

(** What one call of the engine's [world.step] leaves behind: it returns,
    or it raises and [update] catches. *)
Inductive Outcome : Type :=
| Returned (bs : list Tracked)
| Threw (bs : list Tracked).

(** The copy of a body's transform into its mesh. *)
Definition syncMesh (tb : Tracked) : Tracked :=
  match tb.(userData) with
  | Some _ =>
      mkTracked tb.(body)
                (Some (THREE.mkMesh (cannonToThreeVector tb.(body).(position))
                                    (mkQuaternion tb.(body).(quaternion).(qx)
                                                  tb.(body).(quaternion).(qy)
                                                  tb.(body).(quaternion).(qz)
                                                  tb.(body).(quaternion).(qw))))
  | None => tb
  end.

(** The two particle indices a spring joins, in the order given to
    [new CANNON.Spring]. *)
Definition endpoints (s : Spring) : nat * nat := (s.(bodyA), s.(bodyB)).

Definition endpoints_eq_dec (p q : nat * nat) : {p = q} + {p <> q}.
Proof. decide equality; apply Nat.eq_dec. Defined.

(** How many springs of [cs] run from particle [i] to particle [j]. *)
Definition springCount (cs : list Spring) (i j : nat) : nat :=
  count_occ endpoints_eq_dec (map endpoints cs) (i, j).

Section Update.
(** The engine's integrator, [this.world.step]. *)
Variable step : JSNumber -> list Tracked -> Outcome.

(** What follows the guard of [update]: the [try] block. *)
Definition stepAndSync (deltaTime : JSNumber) (w : t) : t :=
  match step deltaTime w.(bodies) with
  | Returned bs => mkWorld (map syncMesh bs) w.(postStep)
  | Threw bs => mkWorld bs w.(postStep)
  end.

(** [update(deltaTime)] *)
Definition update (deltaTime : JSNumber) (w : t) : t :=
  let deltaTime :=
    if isNaN deltaTime || js_le0 deltaTime then Num (1 / 60) else deltaTime in
  stepAndSync deltaTime w.
End Update.

End PhysicsWorld.

(** ** Keys *)

(** [String.prototype.toLowerCase] on the ASCII letters, which is all the
    key names of the rig need. *)
Definition lowerChar (c : ascii) : ascii :=
  let n := nat_of_ascii c in
  if (65 <=? n)%nat && (n <=? 90)%nat then ascii_of_nat (n + 32) else c.

Fixpoint toLowerCase (s : string) : string :=
  match s with
  | EmptyString => EmptyString
  | String c t => String (lowerChar c) (toLowerCase t)
  end.

(** ** Car: the vehicle rig, its bumper and its controls *)

Module Car.

Abbreviation Vec3 := CANNON.Vec3.
Abbreviation Body := CANNON.Body.
Abbreviation mkVec3 := CANNON.mkVec3.

(** *** Car properties and dimensions (set once by the constructor) *)

Definition maxSteeringAngle : R := 0.5.
Definition maxForce : R := 500.
Definition brakingForce : R := 1000.

Definition width : R := 1.8.
Definition length : R := 4.5.
Definition height : R := 1.4.
Definition wheelRadius : R := 0.4.
Definition wheelWidth : R := 0.3.

(** *** State *)

Record Controls : Type := mkControls {
  forward : bool;
  backward : bool;
  left : bool;
  right : bool;
  brake : bool
}.

Definition released : Controls := mkControls false false false false false.

(** The fields of a [Car] that change after construction or that the
    methods below read.  The constraints (hinges, suspension, bumper
    tethers) are handed to the engine at construction and never read
    again by the rig; they are not part of this state.  [frontBumper] and
    [carBody] are assigned by [init] before any other method can run, so
    the truthiness guards on them always pass. *)
Record t : Type := mkCar {
  position : Vec3;
  controls : Controls;
  speed : R;
  steering : R;
  chassisBody : Body;
  chassisMesh : THREE.Mesh;
  carBody : THREE.Mesh;
  wheelPositions : list Vec3;
  wheelMeshes : list THREE.Mesh;
  wheelBodies : list Body;
  frontBumper : PhysicsWorld.SoftBody
}.

Definition set_controls (v : Controls) (c : t) : t :=
  mkCar c.(position) v c.(speed) c.(steering) c.(chassisBody) c.(chassisMesh)
        c.(carBody) c.(wheelPositions) c.(wheelMeshes) c.(wheelBodies) c.(frontBumper).

Definition set_speed (v : R) (c : t) : t :=
  mkCar c.(position) c.(controls) v c.(steering) c.(chassisBody) c.(chassisMesh)
        c.(carBody) c.(wheelPositions) c.(wheelMeshes) c.(wheelBodies) c.(frontBumper).

Definition set_steering (v : R) (c : t) : t :=
  mkCar c.(position) c.(controls) c.(speed) v c.(chassisBody) c.(chassisMesh)
        c.(carBody) c.(wheelPositions) c.(wheelMeshes) c.(wheelBodies) c.(frontBumper).

Definition set_chassisBody (v : Body) (c : t) : t :=
  mkCar c.(position) c.(controls) c.(speed) c.(steering) v c.(chassisMesh)
        c.(carBody) c.(wheelPositions) c.(wheelMeshes) c.(wheelBodies) c.(frontBumper).

Definition set_chassisMesh (v : THREE.Mesh) (c : t) : t :=
  mkCar c.(position) c.(controls) c.(speed) c.(steering) c.(chassisBody) v
        c.(carBody) c.(wheelPositions) c.(wheelMeshes) c.(wheelBodies) c.(frontBumper).

Definition set_carBody (v : THREE.Mesh) (c : t) : t :=
  mkCar c.(position) c.(controls) c.(speed) c.(steering) c.(chassisBody) c.(chassisMesh)
        v c.(wheelPositions) c.(wheelMeshes) c.(wheelBodies) c.(frontBumper).

Definition set_wheelMeshes (v : list THREE.Mesh) (c : t) : t :=
  mkCar c.(position) c.(controls) c.(speed) c.(steering) c.(chassisBody) c.(chassisMesh)
        c.(carBody) c.(wheelPositions) v c.(wheelBodies) c.(frontBumper).

Definition set_wheelBodies (v : list Body) (c : t) : t :=
  mkCar c.(position) c.(controls) c.(speed) c.(steering) c.(chassisBody) c.(chassisMesh)
        c.(carBody) c.(wheelPositions) c.(wheelMeshes) v c.(frontBumper).

Definition set_frontBumper (v : PhysicsWorld.SoftBody) (c : t) : t :=
  mkCar c.(position) c.(controls) c.(speed) c.(steering) c.(chassisBody) c.(chassisMesh)
        c.(carBody) c.(wheelPositions) c.(wheelMeshes) c.(wheelBodies) v.

(** *** Construction *)

(** [this.wheelPositions] of [createWheels]: front left, front right,
    rear left, rear right, relative to the chassis. *)
Definition wheelOffsets : list Vec3 :=
  [ mkVec3 (length * 0.3) (- height / 2 + wheelRadius) (- width / 2);
    mkVec3 (length * 0.3) (- height / 2 + wheelRadius) (width / 2);
    mkVec3 (- length * 0.3) (- height / 2 + wheelRadius) (- width / 2);
    mkVec3 (- length * 0.3) (- height / 2 + wheelRadius) (width / 2) ].

(** [frontBumperPositions] of [createSoftBodyComponents]: the rest offset
    of particle [i] of [segments] along the bumper arc. *)
Definition segments : nat := 8.

Definition frontBumperWidth : R := width * 0.9.

Definition frontBumperOffset (i : nat) : Vec3 :=
  mkVec3 (length / 2 + 0.1)
         (- height / 3)
         (- frontBumperWidth / 2 + (frontBumperWidth / (INR segments - 1)) * INR i).

Definition frontBumperPositions : list Vec3 :=
  map frontBumperOffset (seq 0 segments).

(** The default wheel orientation, as each method rebuilds it:
    [defaultQuat.setFromAxisAngle(new CANNON.Vec3(0, 0, 1), Math.PI / 2)]. *)
Definition defaultQuat : CANNON.Quaternion :=
  CANNON.setFromAxisAngle (mkVec3 0 0 1) (PI / 2).

Definition set_meshPosition (p : Vec3) (m : THREE.Mesh) : THREE.Mesh :=
  THREE.mkMesh p m.(THREE.quaternion).

(** [resetWheelPositions()]: each wheel goes to the chassis position plus
    its offset, and its mesh follows. *)
Definition wheelWorldPos (c : t) (i : nat) : Vec3 :=
  let chassisPos := c.(chassisBody).(CANNON.position) in
  let wheelOffset := nth i c.(wheelPositions) CANNON.zero in
  mkVec3 (chassisPos.(CANNON.x) + wheelOffset.(CANNON.x))
         (chassisPos.(CANNON.y) + wheelOffset.(CANNON.y))
         (chassisPos.(CANNON.z) + wheelOffset.(CANNON.z)).

Definition resetWheelPositions (c : t) : t :=
  let bodies' :=
    mapi (fun i wb => CANNON.set_position (wheelWorldPos c i) wb) c.(wheelBodies) in
  let meshes' :=
    mapi (fun i m =>
            if (i <? List.length c.(wheelBodies))%nat
            then set_meshPosition (cannonToThreeVector (wheelWorldPos c i)) m
            else m)
         c.(wheelMeshes) in
  set_wheelMeshes meshes' (set_wheelBodies bodies' c).

(** [createChassis()]: the body starts at least half a unit above the
    ground; [init] moves it to the spawn position at its end. *)
Definition createChassis (pos : Vec3) : Body :=
  let startY := Rmax pos.(CANNON.y) (height / 2 + 0.5) in
  CANNON.mkBody 1500 (mkVec3 pos.(CANNON.x) startY pos.(CANNON.z))
                CANNON.identity CANNON.zero CANNON.zero CANNON.zero CANNON.zero
                0.5 0.1.

(** [createWheels()]: the loop over the four wheels, threading the world. *)
Fixpoint createWheels (pos : Vec3) (offsets : list Vec3) (w : PhysicsWorld.t)
  : list Body * list THREE.Mesh * PhysicsWorld.t :=
  match offsets with
  | [] => ([], [], w)
  | o :: rest =>
      let p := mkVec3 (pos.(CANNON.x) + o.(CANNON.x))
                      (pos.(CANNON.y) + o.(CANNON.y))
                      (pos.(CANNON.z) + o.(CANNON.z)) in
      let '(wheelBody, w1) := PhysicsWorld.createWheelBody wheelRadius wheelWidth p w in
      let wheelMesh := set_meshPosition p THREE.newMesh in
      let '(bs, ms, w2) := createWheels pos rest w1 in
      (wheelBody :: bs, wheelMesh :: ms, w2)
  end.

(** [createSoftBodyComponents()]: the bumper particles at the spawn
    position plus their rest offsets, mass 100, stiffness 1000, damping 0.3. *)
Definition createSoftBodyComponents (pos : Vec3) (w : PhysicsWorld.t)
  : PhysicsWorld.SoftBody * PhysicsWorld.t :=
  PhysicsWorld.createSoftBody
    (map (fun p => mkVec3 (pos.(CANNON.x) + p.(CANNON.x))
                          (pos.(CANNON.y) + p.(CANNON.y))
                          (pos.(CANNON.z) + p.(CANNON.z)))
         frontBumperPositions)
    100 1000 0.3 w.

(** [new Car(scene, physicsWorld, position)]: the constructor and [init].
    The world keeps the bodies as they were added. *)
Definition new (pos : Vec3) (w : PhysicsWorld.t) : t * PhysicsWorld.t :=
  let chassisMesh0 := THREE.newMesh in
  let chassis0 := createChassis pos in
  let '(_, w1) := PhysicsWorld.addBody chassis0 (Some chassisMesh0) w in
  let chassisMesh1 :=
    set_meshPosition (cannonToThreeVector chassis0.(CANNON.position)) chassisMesh0 in
  let '(bodies, meshes, w2) := createWheels pos wheelOffsets w1 in
  let '(bumper, w3) := createSoftBodyComponents pos w2 in
  let c :=
    mkCar pos released 0 0
          (CANNON.set_position (mkVec3 pos.(CANNON.x) pos.(CANNON.y) pos.(CANNON.z)) chassis0)
          chassisMesh1 THREE.newMesh wheelOffsets meshes bodies bumper in
  (resetWheelPositions c, w3).

(** *** Keyboard: the two listeners of [setupControls] *)

Definition set_forward (v : bool) (k : Controls) : Controls :=
  mkControls v k.(backward) k.(left) k.(right) k.(brake).
Definition set_backward (v : bool) (k : Controls) : Controls :=
  mkControls k.(forward) v k.(left) k.(right) k.(brake).
Definition set_left (v : bool) (k : Controls) : Controls :=
  mkControls k.(forward) k.(backward) v k.(right) k.(brake).
Definition set_right (v : bool) (k : Controls) : Controls :=
  mkControls k.(forward) k.(backward) k.(left) v k.(brake).
Definition set_brake (v : bool) (k : Controls) : Controls :=
  mkControls k.(forward) k.(backward) k.(left) k.(right) v.

(** *** Steering *)

Definition steeringSpeed : R := 2.0.
Definition steeringReturnSpeed : R := 3.0.

(** The new value of [this.steering] in [updateSteering]. *)
Definition steer (k : Controls) (steering deltaTime : R) : R :=
  if k.(left) then
    Rmin (steering + steeringSpeed * deltaTime) maxSteeringAngle
  else if k.(right) then
    Rmax (steering - steeringSpeed * deltaTime) (- maxSteeringAngle)
  else if Rgt_dec steering 0 then
    Rmax (steering - steeringReturnSpeed * deltaTime) 0
  else if Rlt_dec steering 0 then
    Rmin (steering + steeringReturnSpeed * deltaTime) 0
  else steering.

(** The orientation written to both front wheels. *)
Definition steeredQuat (steering : R) : CANNON.Quaternion :=
  let steeringQuat := CANNON.setFromAxisAngle (mkVec3 0 1 0) steering in
  CANNON.mult steeringQuat defaultQuat.

(** [updateSteering(deltaTime)] *)
Definition updateSteering (deltaTime : R) (c : t) : t :=
  let s := steer c.(controls) c.(steering) deltaTime in
  let wheels :=
    fold_left (fun ws i => update_at i (CANNON.set_quaternion (steeredQuat s)) ws)
              (seq 0 2) c.(wheelBodies) in
  set_wheelBodies wheels (set_steering s c).

(** *** Driving *)

(** The local [engineForce] of [updateDriving]. *)
Definition engineForce (k : Controls) : R :=
  if k.(forward) then maxForce
  else if k.(backward) then - maxForce * 0.5
  else 0.

(** The body of the loop over the rear wheels for one wheel. *)
Definition driveWheel (k : Controls) (wheelBody : Body) : Body :=
  let forceDir := mkVec3 1 0 0 in
  let worldForceDir := CANNON.vmult wheelBody.(CANNON.quaternion) forceDir in
  let pushed :=
    if Req_dec_T (engineForce k) 0 then wheelBody
    else CANNON.applyForce (CANNON.scale worldForceDir (engineForce k))
                           wheelBody.(CANNON.position) wheelBody in
  if k.(brake) then
    CANNON.set_linearDamping 0.9 (CANNON.set_angularDamping 0.95 pushed)
  else
    CANNON.set_linearDamping 0.05 (CANNON.set_angularDamping 0.1 pushed).

(** [updateDriving(deltaTime)]: [for (let i = 2; i < 4; i++)], then the
    speed read-out.  The speed is a real here, so [isNaN(velocity)] is
    false. *)
Definition updateDriving (deltaTime : R) (c : t) : t :=
  let wheels :=
    fold_left (fun ws i => update_at i (driveWheel c.(controls)) ws)
              (seq 2 2) c.(wheelBodies) in
  let velocity := CANNON.norm c.(chassisBody).(CANNON.velocity) in
  set_speed velocity (set_wheelBodies wheels c).

(** The world-space direction of a wheel's local +X axis. *)
Definition forwardDir (wb : Body) : Vec3 :=
  CANNON.vmult wb.(CANNON.quaternion) (mkVec3 1 0 0).

(** A wheel with the two damping coefficients of a held brake. *)
Definition braked (wb : Body) : Body :=
  CANNON.set_linearDamping 0.9 (CANNON.set_angularDamping 0.95 wb).

(** [updateWheelVisuals()] *)
Definition updateWheelVisuals (c : t) : t :=
  let meshes :=
    mapi (fun i wheelMesh =>
            match nth_error c.(wheelBodies) i with
            | Some wheelBody =>
                THREE.mkMesh (cannonToThreeVector wheelBody.(CANNON.position))
                             wheelBody.(CANNON.quaternion)
            | None => wheelMesh
            end)
         c.(wheelMeshes) in
  set_wheelMeshes meshes c.

(** *** Reset *)

(** The loop of [reset] over the wheels, for one wheel. *)
Definition resetWheel (wheelBody : Body) : Body :=
  CANNON.set_linearDamping 0.05
    (CANNON.set_angularDamping 0.1
      (CANNON.set_angularVelocity CANNON.zero
        (CANNON.set_velocity CANNON.zero
          (CANNON.set_quaternion defaultQuat wheelBody)))).

(** The loop of [reset] over the bumper particles, for particle [i] of [n]. *)
Definition resetParticlePos (chassisPos : Vec3) (n i : nat) : Vec3 :=
  mkVec3 (chassisPos.(CANNON.x) + length / 2 + 0.1)
         (chassisPos.(CANNON.y) - height / 3)
         (chassisPos.(CANNON.z) - (width * 0.9 / 2)
          + ((width * 0.9) / (INR n - 1)) * INR i).

Definition resetParticle (chassisPos : Vec3) (n i : nat) (body : Body) : Body :=
  CANNON.set_angularVelocity CANNON.zero
    (CANNON.set_velocity CANNON.zero
      (CANNON.set_position (resetParticlePos chassisPos n i) body)).

(** [reset()] *)
Definition reset (c : t) : t :=
  let chassis :=
    CANNON.set_angularVelocity CANNON.zero
      (CANNON.set_velocity CANNON.zero
        (CANNON.set_quaternion CANNON.identity
          (CANNON.set_position
             (mkVec3 c.(position).(CANNON.x)
                     (c.(position).(CANNON.y) + height)
                     c.(position).(CANNON.z))
             c.(chassisBody)))) in
  let c1 := resetWheelPositions (set_chassisBody chassis c) in
  let c2 := set_wheelBodies (map resetWheel c1.(wheelBodies)) c1 in
  let bumper := c2.(frontBumper) in
  let n := List.length bumper.(PhysicsWorld.particles) in
  let particles' :=
    mapi (resetParticle c2.(chassisBody).(CANNON.position) n)
         bumper.(PhysicsWorld.particles) in
  let c3 :=
    set_frontBumper
      (PhysicsWorld.mkSoftBody particles' bumper.(PhysicsWorld.constraints)) c2 in
  set_steering 0 (set_speed 0 (set_controls released c3)).

(** [keydown]: [switch (event.key.toLowerCase())] *)
Definition keydown (key : string) (c : t) : t :=
  let k := toLowerCase key in
  if String.eqb k "w" then set_controls (set_forward true c.(controls)) c
  else if String.eqb k "s" then set_controls (set_backward true c.(controls)) c
  else if String.eqb k "a" then set_controls (set_left true c.(controls)) c
  else if String.eqb k "d" then set_controls (set_right true c.(controls)) c
  else if String.eqb k " " then set_controls (set_brake true c.(controls)) c
  else if String.eqb k "r" then reset c
  else c.

(** [keyup] *)
Definition keyup (key : string) (c : t) : t :=
  let k := toLowerCase key in
  if String.eqb k "w" then set_controls (set_forward false c.(controls)) c
  else if String.eqb k "s" then set_controls (set_backward false c.(controls)) c
  else if String.eqb k "a" then set_controls (set_left false c.(controls)) c
  else if String.eqb k "d" then set_controls (set_right false c.(controls)) c
  else if String.eqb k " " then set_controls (set_brake false c.(controls)) c
  else c.

(** *** The per-frame update *)

(** The sanity floor of [update]. *)
Definition floorY : R := -10.

(** [update(deltaTime)]: an invalid [deltaTime] skips the whole update.
    Past the guard [deltaTime] is a number, so the [NaN] branch of the
    match is never taken. *)
Definition update (deltaTime : JSNumber) (c : t) : t :=
  if isNaN deltaTime || js_le0 deltaTime then c
  else
    match deltaTime with
    | NaN => c
    | Num dt =>
        let c1 := updateSteering dt c in
        let c2 := updateDriving dt c1 in
        let c3 := updateWheelVisuals c2 in
        let c4 := set_carBody c3.(chassisMesh) c3 in
        if Rlt_dec c4.(chassisBody).(CANNON.position).(CANNON.y) floorY
        then reset c4
        else c4
    end.

(** *** The rig as a transition system *)

Inductive BodyRef : Type :=
| Chassis
| Wheel (i : nat)
| Particle (i : nat).

(** What can happen to a rig between construction and page unload.
    [Physics f] is one [PhysicsWorld.update]: the engine rewrites each body
    of the rig ([f] is arbitrary, the integrator is external) and the
    chassis mesh is synchronised. *)
Inductive event : Type :=
| KeyDown (key : string)
| KeyUp (key : string)
| ResetButton
| Update (deltaTime : JSNumber)
| Physics (f : BodyRef -> Body -> Body).

Definition physics (f : BodyRef -> Body -> Body) (c : t) : t :=
  let chassis := f Chassis c.(chassisBody) in
  let bumper := c.(frontBumper) in
  set_chassisMesh
    (THREE.mkMesh (cannonToThreeVector chassis.(CANNON.position))
                  chassis.(CANNON.quaternion))
    (set_frontBumper
       (PhysicsWorld.mkSoftBody
          (mapi (fun i => f (Particle i)) bumper.(PhysicsWorld.particles))
          bumper.(PhysicsWorld.constraints))
       (set_wheelBodies (mapi (fun i => f (Wheel i)) c.(wheelBodies))
          (set_chassisBody chassis c))).

Definition step (c : t) (e : event) : t :=
  match e with
  | KeyDown key => keydown key c
  | KeyUp key => keyup key c
  | ResetButton => reset c
  | Update deltaTime => update deltaTime c
  | Physics f => physics f c
  end.

Definition run (c : t) (es : list event) : t := fold_left step es c.

(** What no event changes: number of wheels, wheel offsets, number of
    bumper particles, spawn position. *)
Definition shape (c : t) : nat * list Vec3 * nat * Vec3 :=
  (List.length c.(wheelBodies), c.(wheelPositions),
   List.length c.(frontBumper).(PhysicsWorld.particles), c.(position)).

(** An event other than a key press. *)
Definition noKeyDown (e : event) : Prop :=
  match e with KeyDown _ => False | _ => True end.

(** *** Runs of steering calls *)

(** One [updateSteering] call together with the control flags in force
    when it runs. *)
Definition call : Type := (Controls * R)%type.

Definition steerCall (c : t) (k : call) : t :=
  updateSteering (snd k) (set_controls (fst k) c).


Fixpoint steerings (c : t) (calls : list call) : list R :=
  match calls with
  | [] => []
  | k :: rest => (steerCall c k).(steering) :: steerings (steerCall c k) rest
  end.

Definition inRange (s : R) : Prop := -0.5 <= s <= 0.5.



(** *** A rig to try things on: the default spawn position in an empty world *)

Definition sample : t := fst (new (mkVec3 0 1 0) PhysicsWorld.empty).

(** The same rig with W and S both held. *)
Definition bothHeld : t :=
  set_controls (mkControls true true false false false) sample.


(** The same rig with W and the space bar held. *)
Definition forwardBraking : t :=
  set_controls (mkControls true false false false true) sample.

End Car.

(** ** Further parts of the sources *)

(** *** Measures on the engine's values *)

Module Measure.

(** The sum of the masses of a list of bodies. *)
Definition totalMass (bs : list CANNON.Body) : R :=
  fold_right (fun b acc => b.(CANNON.mass) + acc) 0 bs.

(** The squared norm of a quaternion; a rotation has squared norm 1. *)
Definition normSq (q : CANNON.Quaternion) : R :=
  q.(CANNON.qx) * q.(CANNON.qx) + q.(CANNON.qy) * q.(CANNON.qy)
  + q.(CANNON.qz) * q.(CANNON.qz) + q.(CANNON.qw) * q.(CANNON.qw).

(** Two bodies with the same mass, position and velocities. *)
Definition sameMotion (a b : CANNON.Body) : Prop :=
  a.(CANNON.mass) = b.(CANNON.mass)
  /\ a.(CANNON.position) = b.(CANNON.position)
  /\ a.(CANNON.velocity) = b.(CANNON.velocity)
  /\ a.(CANNON.angularVelocity) = b.(CANNON.angularVelocity).

End Measure.

(** *** Helpers of js/utils.js *)

Module Utils.

(** [degToRad(degrees)] *)
Definition degToRad (degrees : R) : R := degrees * PI / 180.

(** [radToDeg(radians)] *)
Definition radToDeg (radians : R) : R := radians * 180 / PI.


(** [clamp(value, min, max)] *)
Definition clamp (value min max : R) : R := Rmax min (Rmin max value).

(** [data[i] = v] on an array of fixed length: a write past the end of a
    typed array is dropped. *)
Definition set_at {A : Type} (i : nat) (v : A) (l : list A) : list A :=
  update_at i (fun _ => v) l.

(** [grid[i] && grid[i][j] ? grid[i][j] : 0]: a missing row or cell counts
    as 0 (and so does a cell that holds 0). *)
Definition gridCell (grid : list (list R)) (i j : nat) : R :=
  match nth_error grid i with
  | Some row => match nth_error row j with Some h => h | None => 0 end
  | None => 0
  end.

(** [createHeightmapFromGrid(grid, gridSize, heightScale)]: a zero-filled
    array of [(gridSize + 1)^2] cells, written row by row at index
    [i * size + j].  Single-precision rounding of the typed array is
    abstracted. *)
Definition createHeightmapFromGrid (grid : list (list R)) (gridSize : nat) (heightScale : R)
  : list R :=
  let size := (gridSize + 1)%nat in
  fold_left
    (fun data i =>
       fold_left
         (fun data j =>
            let index := (i * size + j)%nat in
            set_at index (gridCell grid i j * heightScale) data)
         (seq 0 size) data)
    (seq 0 size) (repeat 0 (size * size)).

End Utils.

(** *** Terrain body (js/physics.js) *)

Module Terrain.

(** The rows that [createTerrainBody] hands to the engine's height field:
    [matrix[i][j] = heightData[i * sizeZ + j]], which is [undefined]
    ([None]) past the end of [heightData]. *)
Definition heightMatrix (heightData : list R) (sizeX sizeZ : nat) : list (list (option R)) :=
  map (fun i => map (fun j => nth_error heightData (i * sizeZ + j)) (seq 0 sizeZ))
      (seq 0 sizeX).


End Terrain.

(** *** The frame driver (js/main.js) *)

Module Main.

(** The [deltaTime] of [animate(time)]:
    [Math.min((time - lastTime) / 1000, 0.1)], both time stamps being
    numbers. *)
Definition frameDeltaTime (time lastTime : R) : R :=
  Rmin ((time - lastTime) / 1000) 0.1.

End Main.

(** *** The first [Car] class of js/car.js (sphere wheels, hinge only)

    Only the two methods in which it differs from the canonical rig on the
    state they share are modelled: [updateDriving] with the helpers of its
    [vehicle] object, and [reset]. *)

Module LegacyCar.
Import Car.

(** [vehicle.applyEngineForce(force, wheelIndex)] *)
Definition applyEngineForce (force : R) (wheelIndex : nat) (ws : list Body) : list Body :=
  update_at wheelIndex
    (fun wheelBody =>
       let worldForward := mkVec3 1 0 0 in
       let forceVector := CANNON.vmult wheelBody.(CANNON.quaternion) worldForward in
       CANNON.applyForce (CANNON.scale forceVector force)
                         wheelBody.(CANNON.position) wheelBody)
    ws.

(** [vehicle.setBrake(brakeForce, wheelIndex)] *)
Definition setBrake (brakeForce : R) (wheelIndex : nat) (ws : list Body) : list Body :=
  update_at wheelIndex
    (CANNON.set_angularDamping (if Rgt_dec brakeForce 0 then 0.9 else 0.0))
    ws.

(** The locals [engineForce] and [brakingForce] of [updateDriving]. *)
Definition engineForce (k : Controls) : R :=
  let engineForce :=
    if k.(forward) then maxForce
    else if k.(backward) then - maxForce
    else 0 in
  if k.(brake) then 0 else engineForce.

Definition appliedBrake (k : Controls) : R :=
  if k.(brake) then brakingForce else 0.

(** [updateDriving(deltaTime)] *)
Definition updateDriving (deltaTime : R) (c : t) : t :=
  let ws1 := applyEngineForce (engineForce c.(controls)) 2 c.(wheelBodies) in
  let ws2 := applyEngineForce (engineForce c.(controls)) 3 ws1 in
  let ws3 :=
    fold_left (fun ws i => setBrake (appliedBrake c.(controls)) i ws) (seq 0 4) ws2 in
  set_speed (CANNON.norm c.(chassisBody).(CANNON.velocity)) (set_wheelBodies ws3 c).

(** The loop of [reset] over the wheels, for one wheel. *)
Definition resetWheel (chassisPos : Vec3) (wheelBody : Body) : Body :=
  CANNON.set_angularVelocity CANNON.zero
    (CANNON.set_velocity CANNON.zero
      (CANNON.set_quaternion CANNON.identity
        (CANNON.set_position chassisPos wheelBody))).

(** The loop of [reset] over the bumper particles, for particle [i] of [n]. *)
Definition resetParticlePos (pos : Vec3) (n i : nat) : Vec3 :=
  mkVec3 (pos.(CANNON.x) + length / 2 + 0.1)
         (pos.(CANNON.y) - height / 3)
         (pos.(CANNON.z) - width / 2 + (width / (INR n - 1)) * INR i).

(** [reset()] *)
Definition reset (c : t) : t :=
  let chassis :=
    CANNON.set_angularVelocity CANNON.zero
      (CANNON.set_velocity CANNON.zero
        (CANNON.set_quaternion CANNON.identity
          (CANNON.set_position
             (mkVec3 c.(position).(CANNON.x) c.(position).(CANNON.y)
                     c.(position).(CANNON.z))
             c.(chassisBody)))) in
  let wheels := map (resetWheel chassis.(CANNON.position)) c.(wheelBodies) in
  let bumper := c.(frontBumper) in
  let n := List.length bumper.(PhysicsWorld.particles) in
  let particles' :=
    mapi (fun i body =>
            CANNON.set_angularVelocity CANNON.zero
              (CANNON.set_velocity CANNON.zero
                (CANNON.set_position (resetParticlePos c.(position) n i) body)))
         bumper.(PhysicsWorld.particles) in
  set_steering 0
    (set_speed 0
      (set_controls released
        (set_frontBumper
           (PhysicsWorld.mkSoftBody particles' bumper.(PhysicsWorld.constraints))
           (set_wheelBodies wheels (set_chassisBody chassis c))))).

End LegacyCar.

(** *** Keys the rig listens to *)

Module Keys.



End Keys.

(** * Properties *)

(** ** Arrays *)

Section ArrayFacts.
Context {A B : Type}.

Lemma length_update_at (i : nat) (f : A -> A) (l : list A) :
  List.length (update_at i f l) = List.length l.
Proof.
  revert i; induction l as [|a l IH]; intros [|i]; simpl; auto.
Qed.

Lemma nth_error_update_at_eq (i : nat) (f : A -> A) (l : list A) :
  nth_error (update_at i f l) i = option_map f (nth_error l i).
Proof.
  revert i; induction l as [|a l IH]; intros [|i]; simpl; auto.
Qed.

Lemma nth_error_update_at_neq (i j : nat) (f : A -> A) (l : list A) :
  i <> j -> nth_error (update_at i f l) j = nth_error l j.
Proof.
  revert i j; induction l as [|a l IH]; intros [|i] [|j] Hij; simpl;
    try reflexivity; try congruence.
  apply IH; congruence.
Qed.

Lemma length_mapi_from (k : nat) (f : nat -> A -> B) (l : list A) :
  List.length (mapi_from k f l) = List.length l.
Proof.
  revert k; induction l as [|a l IH]; intros k; simpl; auto.
Qed.

Lemma length_mapi (f : nat -> A -> B) (l : list A) :
  List.length (mapi f l) = List.length l.
Proof. apply length_mapi_from. Qed.

Lemma nth_error_mapi_from (k i : nat) (f : nat -> A -> B) (l : list A) :
  nth_error (mapi_from k f l) i = option_map (f (k + i)%nat) (nth_error l i).
Proof.
  revert k i; induction l as [|a l IH]; intros k [|i]; simpl; auto.
  - now rewrite Nat.add_0_r.
  - rewrite IH. now replace (S k + i)%nat with (k + S i)%nat by lia.
Qed.

Lemma nth_error_mapi (i : nat) (f : nat -> A -> B) (l : list A) :
  nth_error (mapi f l) i = option_map (f i) (nth_error l i).
Proof. apply (nth_error_mapi_from 0). Qed.
End ArrayFacts.

(** ** The spring network of a soft body *)

Module SoftBodyFacts.
Import CANNON PhysicsWorld.


Lemma endpoints_springsFrom (bs : list Body) (k d : R) (i : nat) :
  map endpoints (springsFrom bs k d i)
  = map (pair i) (seq (S i) (List.length bs - S i)).
Proof.
  unfold springsFrom. rewrite map_map. reflexivity.
Qed.

Lemma endpoints_createSprings (bs : list Body) (k d : R) :
  map endpoints (createSprings bs k d)
  = flat_map (fun i => map (pair i) (seq (S i) (List.length bs - S i)))
             (seq 0 (List.length bs)).
Proof.
  unfold createSprings.
  induction (seq 0 (List.length bs)) as [|i l IH]; simpl; auto.
  now rewrite map_app, endpoints_springsFrom, IH.
Qed.

Lemma in_endpoints (bs : list Body) (k d : R) (i j : nat) :
  In (i, j) (map endpoints (createSprings bs k d))
  <-> (i < j < List.length bs)%nat.
Proof.
  rewrite endpoints_createSprings, in_flat_map. split.
  - intros (a & Ha & Hin). apply in_map_iff in Hin.
    destruct Hin as (b & Heq & Hb). inversion Heq; subst.
    apply in_seq in Ha. apply in_seq in Hb. lia.
  - intros H. exists i. split.
    + apply in_seq. lia.
    + apply in_map. apply in_seq. lia.
Qed.

Lemma NoDup_rows (n : nat) (l : list nat) :
  NoDup l ->
  NoDup (flat_map (fun i => map (pair i) (seq (S i) (n - S i))) l).
Proof.
  induction 1 as [|i l Hni Hnd IH]; simpl.
  - constructor.
  - apply NoDup_app; auto.
    + apply Injective_map_NoDup; [|apply seq_NoDup].
      intros a b Hab. now inversion Hab.
    + intros [a b] Ha Hb. apply in_map_iff in Ha.
      destruct Ha as (b' & Heq & _). inversion Heq; subst.
      apply in_flat_map in Hb. destruct Hb as (a' & Ha' & Hin).
      apply in_map_iff in Hin. destruct Hin as (b'' & Heq' & _).
      inversion Heq'; subst. contradiction.
Qed.

Lemma NoDup_endpoints (bs : list Body) (k d : R) :
  NoDup (map endpoints (createSprings bs k d)).
Proof.
  rewrite endpoints_createSprings. apply NoDup_rows, seq_NoDup.
Qed.

(** Between particles [i < j] there is one spring from [i] to [j] and
    none from [j] to [i]. *)
Lemma springCount_createSprings (bs : list Body) (k d : R) (i j : nat) :
  (i < j < List.length bs)%nat ->
  springCount (createSprings bs k d) i j = 1%nat
  /\ springCount (createSprings bs k d) j i = 0%nat.
Proof.
  intros H. unfold springCount. split.
  - apply NoDup_count_occ'; [apply NoDup_endpoints|].
    now apply in_endpoints.
  - apply count_occ_not_In. rewrite in_endpoints. lia.
Qed.

(** Every spring takes its rest length from the positions of its two
    particles in [bs], and the coefficients given. *)
Lemma in_createSprings (bs : list Body) (k d : R) (s : Spring) :
  In s (createSprings bs k d) ->
  (s.(bodyA) < s.(bodyB) < List.length bs)%nat
  /\ s.(restLength)
     = distanceTo (nth s.(bodyA) bs noBody).(position)
                  (nth s.(bodyB) bs noBody).(position)
  /\ s.(stiffness) = k /\ s.(damping) = d.
Proof.
  unfold createSprings, springsFrom. intros H.
  apply in_flat_map in H. destruct H as (i & Hi & H).
  apply in_map_iff in H. destruct H as (j & Heq & Hj).
  apply in_seq in Hi. apply in_seq in Hj. subst s. simpl.
  repeat split; auto; lia.
Qed.

Lemma particles_createSoftBody (positions : list Vec3) (m k d : R) (w : t) :
  (fst (createSoftBody positions m k d w)).(particles)
  = map (fun pos => newBody (m / INR (List.length positions))
                            (mkVec3 pos.(x) pos.(y) pos.(z)))
        positions.
Proof. reflexivity. Qed.

Lemma constraints_createSoftBody (positions : list Vec3) (m k d : R) (w : t) :
  (fst (createSoftBody positions m k d w)).(constraints)
  = createSprings (fst (createSoftBody positions m k d w)).(particles) k d.
Proof. reflexivity. Qed.

(** Particle [i] is created at [positions[i]]. *)
Lemma particle_position (positions : list Vec3) (m k d : R) (w : t) (i : nat) :
  (i < List.length positions)%nat ->
  (nth i (fst (createSoftBody positions m k d w)).(particles) noBody).(position)
  = nth i positions zero.
Proof.
  intros Hi. rewrite particles_createSoftBody.
  set (f := fun pos : Vec3 => newBody _ _).
  rewrite (nth_indep _ noBody (f zero)) by now rewrite length_map.
  rewrite map_nth. unfold f. simpl. now destruct (nth i positions zero).
Qed.

End SoftBodyFacts.

(** ** The rig *)

Module CarFacts.
Import Car.

(** *** What each method leaves alone *)

Lemma frontBumper_resetWheelPositions (c : t) :
  (resetWheelPositions c).(frontBumper) = c.(frontBumper).
Proof. reflexivity. Qed.

Lemma constraints_reset (c : t) :
  (reset c).(frontBumper).(PhysicsWorld.constraints)
  = c.(frontBumper).(PhysicsWorld.constraints).
Proof. reflexivity. Qed.

Lemma constraints_keydown (key : string) (c : t) :
  (keydown key c).(frontBumper).(PhysicsWorld.constraints)
  = c.(frontBumper).(PhysicsWorld.constraints).
Proof.
  unfold keydown.
  repeat match goal with |- context [if ?b then _ else _] => destruct b end;
    reflexivity.
Qed.

Lemma constraints_keyup (key : string) (c : t) :
  (keyup key c).(frontBumper).(PhysicsWorld.constraints)
  = c.(frontBumper).(PhysicsWorld.constraints).
Proof.
  unfold keyup.
  repeat match goal with |- context [if ?b then _ else _] => destruct b end;
    reflexivity.
Qed.

Lemma constraints_update (deltaTime : JSNumber) (c : t) :
  (update deltaTime c).(frontBumper).(PhysicsWorld.constraints)
  = c.(frontBumper).(PhysicsWorld.constraints).
Proof.
  unfold update.
  destruct (isNaN deltaTime || js_le0 deltaTime); [reflexivity|].
  destruct deltaTime as [|dt]; [reflexivity|].
  match goal with |- context [Rlt_dec ?a ?b] => destruct (Rlt_dec a b) end;
    reflexivity.
Qed.

Lemma constraints_step (c : t) (e : event) :
  (step c e).(frontBumper).(PhysicsWorld.constraints)
  = c.(frontBumper).(PhysicsWorld.constraints).
Proof.
  destruct e; simpl.
  - apply constraints_keydown.
  - apply constraints_keyup.
  - apply constraints_reset.
  - apply constraints_update.
  - reflexivity.
Qed.

Lemma constraints_run (es : list event) (c : t) :
  (run c es).(frontBumper).(PhysicsWorld.constraints)
  = c.(frontBumper).(PhysicsWorld.constraints).
Proof.
  unfold run. revert c.
  induction es as [|e es IH]; intros c; simpl; [reflexivity|].
  now rewrite IH, constraints_step.
Qed.

(** The bumper of a new rig is the soft body that [createSoftBody] made
    from the spawn position plus the rest offsets; the soft body does not
    depend on what the world already held. *)
Lemma frontBumper_new (pos : Vec3) (w w' : PhysicsWorld.t) :
  (fst (new pos w)).(frontBumper) = fst (createSoftBodyComponents pos w').
Proof. reflexivity. Qed.

(** *** The particles under [reset] *)

Lemma particles_reset (c : t) :
  (reset c).(frontBumper).(PhysicsWorld.particles)
  = mapi (resetParticle (reset c).(chassisBody).(CANNON.position)
                        (List.length c.(frontBumper).(PhysicsWorld.particles)))
         c.(frontBumper).(PhysicsWorld.particles).
Proof. reflexivity. Qed.

Lemma chassis_reset (c : t) :
  (reset c).(chassisBody).(CANNON.position)
  = mkVec3 c.(position).(CANNON.x) (c.(position).(CANNON.y) + height)
           c.(position).(CANNON.z).
Proof. reflexivity. Qed.

Lemma wheelBodies_reset (c : t) :
  (reset c).(wheelBodies)
  = map resetWheel
        (mapi (fun i wb =>
                 CANNON.set_position
                   (wheelWorldPos (set_chassisBody (reset c).(chassisBody) c) i) wb)
              c.(wheelBodies)).
Proof. reflexivity. Qed.

End CarFacts.

(** ** The sample rig *)

Module SampleRig.
Import Car.

Example sample_wheels : List.length sample.(wheelBodies) = 4%nat.
Proof. reflexivity. Qed.

Example sample_particles :
  List.length sample.(frontBumper).(PhysicsWorld.particles) = 8%nat.
Proof. reflexivity. Qed.

(** Eight particles, fully connected: 8 * 7 / 2 springs. *)
Example sample_springs :
  List.length sample.(frontBumper).(PhysicsWorld.constraints) = 28%nat.
Proof. reflexivity. Qed.

Example sample_chassis_at_spawn :
  sample.(chassisBody).(CANNON.position) = mkVec3 0 1 0.
Proof. reflexivity. Qed.

Example keydown_upper_W : (keydown "W" sample).(controls).(forward) = true.
Proof. reflexivity. Qed.

Example keyup_w :
  (keyup "w" (keydown "w" sample)).(controls) = released.
Proof. reflexivity. Qed.

Example keydown_r_resets :
  (keydown "r" (keydown "a" sample)).(controls) = released.
Proof. reflexivity. Qed.

(** Left held for a whole second from centre: the angle stops at 0.5. *)
Example steer_left_saturates : steer (set_left true released) 0 1 = 0.5.
Proof.
  unfold steer, steeringSpeed, maxSteeringAngle. simpl.
  unfold Rmin. destruct (Rle_dec _ _); lra.
Qed.

(** Released at 0.1 rad, one frame of 1/60 s: 0.1 - 3/60 = 0.05. *)
Example steer_returns_partly : steer released 0.1 (1 / 60) = 0.05.
Proof.
  unfold steer, steeringReturnSpeed. simpl.
  destruct (Rgt_dec _ _); [|lra].
  unfold Rmax. destruct (Rle_dec _ _); lra.
Qed.

Example engineForce_reverse :
  engineForce (set_backward true released) = -250.
Proof. unfold engineForce, maxForce. simpl. lra. Qed.

End SampleRig.

(** ** The spring network is fixed at creation *)

Module SpringNetwork.
Import CANNON PhysicsWorld SoftBodyFacts.

(** [reset] rewrites a particle's position and its two velocities and
    nothing else. *)
Lemma reset_particle_fields (c : Car.t) (i : nat) (b : Body) :
  nth_error c.(Car.frontBumper).(particles) i = Some b ->
  exists b',
    nth_error (Car.reset c).(Car.frontBumper).(particles) i = Some b'
    /\ b'.(mass) = b.(mass) /\ b'.(quaternion) = b.(quaternion)
    /\ b'.(force) = b.(force) /\ b'.(torque) = b.(torque)
    /\ b'.(angularDamping) = b.(angularDamping)
    /\ b'.(linearDamping) = b.(linearDamping).
Proof.
  intros Hb. rewrite CarFacts.particles_reset, nth_error_mapi, Hb. simpl.
  eexists; split; [reflexivity|]. repeat split.
Qed.

(** C1.  [createSoftBody(positions, mass, stiffness, damping)] creates,
    for every unordered pair of particles [i < j], exactly one spring (it
    runs from [i] to [j], and none runs from [j] to [i]); every spring it
    creates joins two distinct particles, has as rest length the Euclidean
    distance between the two creation positions, and carries the given
    stiffness and damping.  On a rig whose bumper is that soft body,
    [reset()] and every sequence of events (key presses, resets, frame
    updates, engine steps) leave the list of springs, rest lengths
    included, as it was created; [reset()] changes no field of a particle
    other than its position and velocities. *)
Theorem rest_lengths_fixed (positions : list Vec3) (m k d : R) (w : t) :
  let sb := fst (createSoftBody positions m k d w) in
  (forall i j : nat,
      (i < j < List.length positions)%nat ->
      springCount sb.(constraints) i j = 1%nat
      /\ springCount sb.(constraints) j i = 0%nat)
  /\ (forall s : Spring,
        In s sb.(constraints) ->
        (s.(bodyA) < s.(bodyB) < List.length positions)%nat
        /\ s.(restLength)
           = distanceTo (nth s.(bodyA) positions zero) (nth s.(bodyB) positions zero)
        /\ s.(stiffness) = k /\ s.(damping) = d)
  /\ (forall c : Car.t,
        c.(Car.frontBumper) = sb ->
        (Car.reset c).(Car.frontBumper).(constraints) = sb.(constraints)
        /\ (forall es : list Car.event,
              (Car.run c es).(Car.frontBumper).(constraints) = sb.(constraints))
        /\ (forall (i : nat) (b : Body),
              nth_error sb.(particles) i = Some b ->
              exists b',
                nth_error (Car.reset c).(Car.frontBumper).(particles) i = Some b'
                /\ b'.(mass) = b.(mass) /\ b'.(quaternion) = b.(quaternion)
                /\ b'.(force) = b.(force) /\ b'.(torque) = b.(torque)
                /\ b'.(angularDamping) = b.(angularDamping)
                /\ b'.(linearDamping) = b.(linearDamping))).
Proof.
  intros sb.
  assert (Hlen : List.length sb.(particles) = List.length positions).
  { unfold sb. rewrite particles_createSoftBody. apply length_map. }
  split; [|split].
  - intros i j Hij. unfold sb. rewrite constraints_createSoftBody.
    apply springCount_createSprings. fold sb. lia.
  - intros s Hs. unfold sb in Hs. rewrite constraints_createSoftBody in Hs.
    apply in_createSprings in Hs. fold sb in Hs.
    destruct Hs as (Hlt & Hrest & Hk & Hd). rewrite Hlen in Hlt.
    repeat split; try lia; auto.
    rewrite Hrest. unfold sb.
    rewrite !particle_position by lia. reflexivity.
  - intros c Hc. split; [|split].
    + now rewrite CarFacts.constraints_reset, Hc.
    + intros es. now rewrite CarFacts.constraints_run, Hc.
    + intros i b Hb. apply reset_particle_fields. now rewrite Hc.
Qed.

(** Three particles on a line: the spring between the first two. *)
Lemma rest_lengths_fixed_witness :
  springCount
    (fst (createSoftBody [mkVec3 0 0 0; mkVec3 0 0 1; mkVec3 0 0 2]
                         100 1000 0.3 empty)).(constraints) 0 1 = 1%nat.
Proof.
  apply (proj1 (rest_lengths_fixed
                  [mkVec3 0 0 0; mkVec3 0 0 1; mkVec3 0 0 2]
                  100 1000 0.3 empty) 0%nat 1%nat).
  simpl. lia.
Defined.

End SpringNetwork.

(** ** Steering *)

Module Steering.
Import Car.


Ltac minmax :=
  unfold Rmin, Rmax;
  repeat match goal with
         | |- context [Rle_dec ?a ?b] => destruct (Rle_dec a b)
         | |- context [Rgt_dec ?a ?b] => destruct (Rgt_dec a b)
         | |- context [Rlt_dec ?a ?b] => destruct (Rlt_dec a b)
         end.

Lemma steering_updateSteering (dt : R) (c : t) :
  (updateSteering dt c).(steering) = steer c.(controls) c.(steering) dt.
Proof. reflexivity. Qed.

Lemma steering_steerCall (c : t) (k : call) :
  (steerCall c k).(steering) = steer (fst k) c.(steering) (snd k).
Proof. reflexivity. Qed.

(** One step keeps the angle in range. *)
Lemma steer_inRange (k : Controls) (s dt : R) :
  inRange s -> 0 <= dt -> inRange (steer k s dt).
Proof.
  unfold inRange, steer, steeringSpeed, steeringReturnSpeed, maxSteeringAngle.
  intros Hs Hdt.
  destruct (left k); [minmax; lra|].
  destruct (right k); minmax; lra.
Qed.

Lemma steerings_inRange (calls : list call) (c : t) :
  inRange c.(steering) ->
  Forall (fun k => 0 <= snd k) calls ->
  Forall inRange (steerings c calls).
Proof.
  revert c. induction calls as [|k calls IH]; intros c Hc Hdt; simpl.
  - constructor.
  - inversion Hdt as [|? ? Hk Hrest]; subst.
    assert (Hstep : inRange (steerCall c k).(steering)).
    { rewrite steering_steerCall. now apply steer_inRange. }
    constructor; auto.
Qed.

(** C2.  From steering angle 0, whatever the left/right flags are at each
    call and whatever the non-negative [deltaTime] of each
    [updateSteering] call, the angle after every call lies in
    [[-0.5, 0.5]], with 0.5 the rig's [maxSteeringAngle]. *)
Theorem steering_clamped (c : t) (calls : list call) :
  c.(steering) = 0 ->
  Forall (fun k => 0 <= snd k) calls ->
  Forall (fun s => -0.5 <= s <= 0.5) (steerings c calls)
  /\ maxSteeringAngle = 0.5.
Proof.
  intros H0 Hdt. split; [|reflexivity].
  apply steerings_inRange; auto.
  unfold inRange. rewrite H0. lra.
Qed.

(** Left held for one frame, then released for a second. *)
Lemma steering_clamped_witness :
  Forall (fun s => -0.5 <= s <= 0.5)
         (steerings sample [(set_left true released, 1 / 60); (released, 1)]).
Proof.
  apply (steering_clamped sample [(set_left true released, 1 / 60); (released, 1)]).
  - reflexivity.
  - repeat constructor; simpl; lra.
Defined.

(** *** Return to centre *)

Lemma steer_noInput_zero (k : Controls) (dt : R) :
  left k = false -> right k = false -> steer k 0 dt = 0.
Proof.
  intros Hl Hr. unfold steer. rewrite Hl, Hr. minmax; lra.
Qed.








End Steering.

(** ** Driving *)

Module Driving.
Import Car.

Lemma wheelBodies_updateDriving (dt : R) (c : t) :
  (updateDriving dt c).(wheelBodies)
  = update_at 3 (driveWheel c.(controls))
              (update_at 2 (driveWheel c.(controls)) c.(wheelBodies)).
Proof. reflexivity. Qed.

Lemma rear_wheel_updateDriving (dt : R) (c : t) (i : nat) :
  i = 2%nat \/ i = 3%nat ->
  nth_error (updateDriving dt c).(wheelBodies) i
  = option_map (driveWheel c.(controls)) (nth_error c.(wheelBodies) i).
Proof.
  rewrite wheelBodies_updateDriving. intros [-> | ->].
  - rewrite nth_error_update_at_neq by discriminate.
    apply nth_error_update_at_eq.
  - rewrite nth_error_update_at_eq.
    now rewrite nth_error_update_at_neq by discriminate.
Qed.

Lemma other_wheel_updateDriving (dt : R) (c : t) (i : nat) :
  i <> 2%nat -> i <> 3%nat ->
  nth_error (updateDriving dt c).(wheelBodies) i = nth_error c.(wheelBodies) i.
Proof.
  intros H2 H3. rewrite wheelBodies_updateDriving.
  rewrite !nth_error_update_at_neq by congruence. reflexivity.
Qed.


Lemma driveWheel_idle (k : Controls) (wb : Body) :
  engineForce k = 0 ->
  (driveWheel k wb).(CANNON.force) = wb.(CANNON.force)
  /\ (driveWheel k wb).(CANNON.torque) = wb.(CANNON.torque).
Proof.
  intros H0. unfold driveWheel.
  destruct (Req_dec_T (engineForce k) 0) as [_|Hne]; [|contradiction].
  destruct (brake k); split; reflexivity.
Qed.

Lemma driveWheel_pushed (k : Controls) (wb : Body) :
  engineForce k <> 0 ->
  (driveWheel k wb).(CANNON.force)
  = CANNON.vadd wb.(CANNON.force) (CANNON.scale (forwardDir wb) (engineForce k)).
Proof.
  intros Hne. unfold driveWheel.
  destruct (Req_dec_T (engineForce k) 0) as [He|_]; [contradiction|].
  destruct (brake k); reflexivity.
Qed.

Lemma engineForce_forward (k : Controls) :
  forward k = true -> engineForce k = maxForce.
Proof. intros H. unfold engineForce. now rewrite H. Qed.

Lemma engineForce_backward (k : Controls) :
  forward k = false -> backward k = true -> engineForce k = - maxForce * 0.5.
Proof. intros Hf Hb. unfold engineForce. now rewrite Hf, Hb. Qed.

Lemma engineForce_idle (k : Controls) :
  forward k = false -> backward k = false -> engineForce k = 0.
Proof. intros Hf Hb. unfold engineForce. now rewrite Hf, Hb. Qed.

(** A wheel in its default orientation points its local +X along world +Y. *)
Lemma forwardDir_defaultQuat_y :
  (CANNON.vmult defaultQuat (mkVec3 1 0 0)).(CANNON.y) = 1.
Proof.
  unfold defaultQuat, CANNON.setFromAxisAngle, CANNON.vmult. simpl.
  pose proof (sin_2a (PI / 2 * 0.5)) as H2.
  replace (2 * (PI / 2 * 0.5)) with (PI / 2) in H2 by lra.
  rewrite sin_PI2 in H2. nra.
Qed.

(** C4, as the code has it.  On every [updateDriving] call the front
    wheels (indices 0 and 1) are left exactly as they were, and each rear
    wheel (indices 2 and 3) receives: nothing when neither forward nor
    backward is held; [+maxForce] = 500 along the world-space direction of
    its local +X axis while forward is held (whether or not backward is
    held too); [-maxForce * 0.5] = -250 along that direction while backward
    is held and forward is not.  The backward magnitude is half the forward
    magnitude. *)
Theorem engine_force_rear_wheels (dt : R) (c : t) :
  (forall i : nat,
      (i < 2)%nat ->
      nth_error (updateDriving dt c).(wheelBodies) i = nth_error c.(wheelBodies) i)
  /\ (forall (i : nat) (wb : Body),
        i = 2%nat \/ i = 3%nat ->
        nth_error c.(wheelBodies) i = Some wb ->
        exists wb',
          nth_error (updateDriving dt c).(wheelBodies) i = Some wb'
          /\ (c.(controls).(forward) = false ->
              c.(controls).(backward) = false ->
              wb'.(CANNON.force) = wb.(CANNON.force)
              /\ wb'.(CANNON.torque) = wb.(CANNON.torque))
          /\ (c.(controls).(forward) = true ->
              wb'.(CANNON.force)
              = CANNON.vadd wb.(CANNON.force) (CANNON.scale (forwardDir wb) maxForce))
          /\ (c.(controls).(forward) = false ->
              c.(controls).(backward) = true ->
              wb'.(CANNON.force)
              = CANNON.vadd wb.(CANNON.force)
                            (CANNON.scale (forwardDir wb) (- maxForce * 0.5))))
  /\ maxForce = 500
  /\ - maxForce * 0.5 = -250
  /\ Rabs (- maxForce * 0.5) = 0.5 * Rabs maxForce.
Proof.
  split; [|split; [|split; [|split]]].
  - intros i Hi. apply other_wheel_updateDriving; lia.
  - intros i wb Hi Hwb.
    exists (driveWheel c.(controls) wb). split; [|split; [|split]].
    + now rewrite rear_wheel_updateDriving, Hwb.
    + intros Hf Hb. apply driveWheel_idle. now apply engineForce_idle.
    + intros Hf. rewrite driveWheel_pushed.
      * now rewrite engineForce_forward.
      * rewrite engineForce_forward by assumption. unfold maxForce. lra.
    + intros Hf Hb. rewrite driveWheel_pushed.
      * now rewrite engineForce_backward.
      * rewrite engineForce_backward by assumption. unfold maxForce. lra.
  - reflexivity.
  - unfold maxForce. lra.
  - unfold maxForce. rewrite Rabs_left by lra. rewrite Rabs_right by lra. lra.
Qed.

(** The sample rig with W held: its rear-left wheel gets the forward push. *)
Lemma engine_force_rear_wheels_witness :
  exists wb wb',
    nth_error (set_controls (set_forward true released) sample).(wheelBodies) 2
    = Some wb
    /\ nth_error
         (updateDriving (1 / 60) (set_controls (set_forward true released) sample)).(wheelBodies) 2
       = Some wb'
    /\ wb'.(CANNON.force)
       = CANNON.vadd wb.(CANNON.force) (CANNON.scale (forwardDir wb) maxForce).
Proof.
  destruct (proj1 (proj2 (engine_force_rear_wheels
                            (1 / 60) (set_controls (set_forward true released) sample)))
                  2%nat
                  (CANNON.set_position (wheelWorldPos sample 2)
                     (CANNON.mkBody 30 (wheelWorldPos sample 2) PhysicsWorld.wheelQuat
                                    CANNON.zero CANNON.zero CANNON.zero CANNON.zero
                                    0.2 0.01))
                  (or_introl eq_refl) eq_refl)
    as (wb' & Hnth & _ & Hfwd & _).
  eexists. exists wb'. split; [reflexivity|]. split; [exact Hnth|].
  apply Hfwd. reflexivity.
Defined.

(** The claim as worded also promises [-maxForce * 0.5] whenever backward
    is held.  With W and S both held the rear-left wheel of the sample rig
    is pushed with [+maxForce], not with [-maxForce * 0.5]. *)
Lemma engine_force_both_held :
  bothHeld.(controls).(backward) = true
  /\ exists wb wb',
       nth_error bothHeld.(wheelBodies) 2 = Some wb
       /\ nth_error (updateDriving (1 / 60) bothHeld).(wheelBodies) 2 = Some wb'
       /\ wb'.(CANNON.force)
          = CANNON.vadd wb.(CANNON.force) (CANNON.scale (forwardDir wb) maxForce)
       /\ wb'.(CANNON.force)
          <> CANNON.vadd wb.(CANNON.force)
                         (CANNON.scale (forwardDir wb) (- maxForce * 0.5)).
Proof.
  set (c := bothHeld). split; [reflexivity|].
  assert (Hne : engineForce c.(controls) <> 0).
  { unfold c, bothHeld, engineForce, maxForce. simpl. lra. }
  destruct (nth_error c.(wheelBodies) 2) as [wb|] eqn:Hwb; [|discriminate Hwb].
  assert (Hq : wb.(CANNON.quaternion) = defaultQuat).
  { injection Hwb as <-. reflexivity. }
  exists wb, (driveWheel c.(controls) wb).
  split; [reflexivity|]. split.
  { now rewrite rear_wheel_updateDriving, Hwb by (left; reflexivity). }
  rewrite driveWheel_pushed by assumption.
  replace (engineForce c.(controls)) with maxForce by reflexivity.
  split; [reflexivity|].
  intros H. apply (f_equal CANNON.y) in H.
  unfold forwardDir in H. rewrite Hq in H.
  pose proof forwardDir_defaultQuat_y as Hy.
  set (dir := CANNON.vmult defaultQuat (mkVec3 1 0 0)) in *. clearbody dir.
  unfold CANNON.vadd, CANNON.scale in H. simpl in H.
  rewrite Hy in H. unfold maxForce in H. lra.
Qed.

(** *** Braking *)


(** The brake flag enters [driveWheel] only through the two damping
    coefficients. *)
Lemma driveWheel_brake (k : Controls) (wb : Body) :
  driveWheel (set_brake true k) wb = braked (driveWheel (set_brake false k) wb)
  /\ (driveWheel (set_brake false k) wb).(CANNON.angularDamping) = 0.1
  /\ (driveWheel (set_brake false k) wb).(CANNON.linearDamping) = 0.05
  /\ (driveWheel (set_brake true k) wb).(CANNON.angularDamping) = 0.95
  /\ (driveWheel (set_brake true k) wb).(CANNON.linearDamping) = 0.9.
Proof. repeat split. Qed.

(** C10.  In [updateDriving], holding brake does not touch the engine
    force: with forward and brake both held, each rear wheel still receives
    the full [+maxForce] along its local +X direction in that call.  Between
    a call with brake held and the same call with brake released, the rig
    differs only in the brake flag itself and in the damping coefficients of
    the two rear wheels: angular damping 0.95 against 0.1, linear damping 0.9
    against 0.05. *)
Theorem brake_only_damps (dt : R) (c : t) :
  let held := updateDriving dt (set_controls (set_brake true c.(controls)) c) in
  let free := updateDriving dt (set_controls (set_brake false c.(controls)) c) in
  (forall (i : nat) (wb : Body),
      i = 2%nat \/ i = 3%nat ->
      nth_error c.(wheelBodies) i = Some wb ->
      c.(controls).(forward) = true ->
      exists wb',
        nth_error held.(wheelBodies) i = Some wb'
        /\ wb'.(CANNON.force)
           = CANNON.vadd wb.(CANNON.force) (CANNON.scale (forwardDir wb) maxForce))
  /\ (forall (i : nat) (wf : Body),
        i = 2%nat \/ i = 3%nat ->
        nth_error free.(wheelBodies) i = Some wf ->
        nth_error held.(wheelBodies) i = Some (braked wf)
        /\ wf.(CANNON.angularDamping) = 0.1 /\ wf.(CANNON.linearDamping) = 0.05
        /\ (braked wf).(CANNON.angularDamping) = 0.95
        /\ (braked wf).(CANNON.linearDamping) = 0.9)
  /\ (forall i : nat,
        i <> 2%nat -> i <> 3%nat ->
        nth_error held.(wheelBodies) i = nth_error free.(wheelBodies) i)
  /\ held = set_wheelBodies held.(wheelBodies)
                            (set_controls (set_brake true c.(controls)) free).
Proof.
  intros held free. split; [|split; [|split]].
  - intros i wb Hi Hwb Hf.
    exists (driveWheel (set_brake true c.(controls)) wb). split.
    + unfold held. rewrite rear_wheel_updateDriving by assumption.
      cbn [wheelBodies set_controls controls]. now rewrite Hwb.
    + rewrite driveWheel_pushed.
      * now rewrite engineForce_forward.
      * rewrite engineForce_forward by assumption. unfold maxForce. lra.
  - intros i wf Hi Hwf. unfold held, free in *.
    rewrite rear_wheel_updateDriving in * by assumption.
    cbn [wheelBodies set_controls controls] in *.
    destruct (nth_error c.(wheelBodies) i) as [wb|]; [|discriminate Hwf].
    injection Hwf as <-. repeat split.
  - intros i H2 H3. unfold held, free.
    now rewrite !other_wheel_updateDriving by assumption.
  - reflexivity.
Qed.

(** W and space held on the sample rig: the rear-left wheel is still pushed
    with the full forward force. *)
Lemma brake_only_damps_witness :
  exists wb wb',
    nth_error forwardBraking.(wheelBodies) 2 = Some wb
    /\ nth_error (updateDriving (1 / 60) forwardBraking).(wheelBodies) 2 = Some wb'
    /\ wb'.(CANNON.force)
       = CANNON.vadd wb.(CANNON.force) (CANNON.scale (forwardDir wb) maxForce).
Proof.
  destruct (nth_error forwardBraking.(wheelBodies) 2) as [wb|] eqn:Hwb;
    [|discriminate Hwb].
  destruct (proj1 (brake_only_damps (1 / 60) forwardBraking) 2%nat wb
                  (or_introl eq_refl) Hwb eq_refl)
    as (wb' & Hnth & Hforce).
  exists wb, wb'. split; [reflexivity|]. split; [exact Hnth|exact Hforce].
Defined.

End Driving.

(** ** Reset *)

Module Reset.
Import Car.

(** *** The shape of a rig never changes *)

Lemma length_fold_update_at {A : Type} (f : A -> A) (idx : list nat) (l : list A) :
  List.length (fold_left (fun ws i => update_at i f ws) idx l) = List.length l.
Proof.
  revert l. induction idx as [|i idx IH]; intros l; simpl; [reflexivity|].
  now rewrite IH, length_update_at.
Qed.

Lemma shape_reset (c : t) : shape (reset c) = shape c.
Proof.
  unfold shape, reset; simpl.
  now rewrite length_map, !length_mapi.
Qed.

Lemma shape_updateSteering (dt : R) (c : t) : shape (updateSteering dt c) = shape c.
Proof.
  unfold shape, updateSteering.
  cbn [wheelBodies wheelPositions frontBumper position set_wheelBodies set_steering].
  now rewrite length_fold_update_at.
Qed.

Lemma shape_updateDriving (dt : R) (c : t) : shape (updateDriving dt c) = shape c.
Proof.
  unfold shape, updateDriving.
  cbn [wheelBodies wheelPositions frontBumper position set_wheelBodies set_speed].
  now rewrite length_fold_update_at.
Qed.

Lemma shape_update (deltaTime : JSNumber) (c : t) : shape (update deltaTime c) = shape c.
Proof.
  unfold update.
  destruct (isNaN deltaTime || js_le0 deltaTime); [reflexivity|].
  destruct deltaTime as [|dt]; [reflexivity|].
  assert (H : shape (set_carBody
                       (updateWheelVisuals (updateDriving dt (updateSteering dt c))).(chassisMesh)
                       (updateWheelVisuals (updateDriving dt (updateSteering dt c))))
              = shape c).
  { transitivity (shape (updateDriving dt (updateSteering dt c))); [reflexivity|].
    now rewrite shape_updateDriving, shape_updateSteering. }
  match goal with |- context [Rlt_dec ?a ?b] => destruct (Rlt_dec a b) end.
  - now rewrite shape_reset.
  - exact H.
Qed.

Lemma shape_step (c : t) (e : event) : shape (step c e) = shape c.
Proof.
  destruct e as [key|key| |deltaTime|f]; simpl.
  - unfold keydown.
    repeat match goal with |- context [if ?b then _ else _] => destruct b end;
      try reflexivity.
    apply shape_reset.
  - unfold keyup.
    repeat match goal with |- context [if ?b then _ else _] => destruct b end;
      reflexivity.
  - apply shape_reset.
  - apply shape_update.
  - unfold shape, physics; simpl. now rewrite !length_mapi.
Qed.

Lemma shape_run (es : list event) (c : t) : shape (run c es) = shape c.
Proof.
  unfold run. revert c.
  induction es as [|e es IH]; intros c; simpl; [reflexivity|].
  now rewrite IH, shape_step.
Qed.

(** Every rig reached from a new one has four wheels with the offsets of
    [createWheels] and [segments] bumper particles. *)
Lemma shape_reachable (pos : Vec3) (w : PhysicsWorld.t) (es : list event) :
  shape (run (fst (new pos w)) es) = (4%nat, wheelOffsets, segments, pos).
Proof. rewrite shape_run. reflexivity. Qed.

(** *** Wheels *)

(** The rest orientation is the one a wheel is created with, and the one
    [updateSteering] writes at steering angle 0. *)
Lemma defaultQuat_rest :
  defaultQuat = PhysicsWorld.wheelQuat /\ steeredQuat 0 = defaultQuat.
Proof.
  split; [reflexivity|].
  unfold steeredQuat, defaultQuat, CANNON.mult, CANNON.setFromAxisAngle. simpl.
  replace (0 * 0.5) with 0 by lra. rewrite sin_0, cos_0.
  f_equal; ring.
Qed.

(** C5.  After [reset()], every wheel [i] of the rig sits at the chassis
    rest position, which is the spawn position raised by the rig's height,
    plus its local offset [wheelPositions[i]]; its orientation is the rest
    (non-steered) quaternion and its linear and angular velocity are zero. *)
Theorem reset_wheels (c : t) (i : nat) (offset : Vec3) (wb : Body) :
  nth_error c.(wheelPositions) i = Some offset ->
  nth_error c.(wheelBodies) i = Some wb ->
  exists wb',
    nth_error (reset c).(wheelBodies) i = Some wb'
    /\ (reset c).(chassisBody).(CANNON.position)
       = mkVec3 c.(position).(CANNON.x) (c.(position).(CANNON.y) + height)
                c.(position).(CANNON.z)
    /\ wb'.(CANNON.position)
       = CANNON.vadd (reset c).(chassisBody).(CANNON.position) offset
    /\ wb'.(CANNON.quaternion) = defaultQuat
    /\ wb'.(CANNON.velocity) = CANNON.zero
    /\ wb'.(CANNON.angularVelocity) = CANNON.zero.
Proof.
  intros Hoff Hwb.
  rewrite CarFacts.wheelBodies_reset, nth_error_map, nth_error_mapi, Hwb. simpl.
  eexists. split; [reflexivity|]. repeat split.
  unfold wheelWorldPos. simpl.
  now rewrite (nth_error_nth _ _ CANNON.zero Hoff).
Qed.

(** The four wheels of the sample rig, here the front left one. *)
Lemma reset_wheels_witness :
  exists wb',
    nth_error (reset sample).(wheelBodies) 0 = Some wb'
    /\ wb'.(CANNON.position)
       = CANNON.vadd (reset sample).(chassisBody).(CANNON.position)
                     (mkVec3 (length * 0.3) (- height / 2 + wheelRadius) (- width / 2))
    /\ wb'.(CANNON.quaternion) = defaultQuat.
Proof.
  destruct (nth_error sample.(wheelBodies) 0) as [wb|] eqn:Hwb; [|discriminate Hwb].
  destruct (reset_wheels sample 0%nat
              (mkVec3 (length * 0.3) (- height / 2 + wheelRadius) (- width / 2))
              wb eq_refl Hwb)
    as (wb' & Hnth & _ & Hpos & Hq & _).
  exists wb'. repeat split; assumption.
Defined.

(** *** Bumper particles *)

(** C6.  After [reset()], in whatever state it is called, every bumper
    particle [i] of a rig with [segments] = 8 particles is back at its
    original rest offset from the chassis rest pose (x = chassis x +
    length/2 + 0.1, y = chassis y - height/3, z = chassis z - 0.9*width/2 +
    i * 0.9*width/7), and its linear and angular velocity are zero. *)
Theorem reset_bumper (c : t) (i : nat) (b : Body) :
  List.length c.(frontBumper).(PhysicsWorld.particles) = segments ->
  nth_error c.(frontBumper).(PhysicsWorld.particles) i = Some b ->
  exists b',
    nth_error (reset c).(frontBumper).(PhysicsWorld.particles) i = Some b'
    /\ b'.(CANNON.position)
       = CANNON.vadd (reset c).(chassisBody).(CANNON.position) (frontBumperOffset i)
    /\ b'.(CANNON.position)
       = (let chassis := (reset c).(chassisBody).(CANNON.position) in
          mkVec3 (chassis.(CANNON.x) + length / 2 + 0.1)
                 (chassis.(CANNON.y) - height / 3)
                 (chassis.(CANNON.z) - 0.9 * width / 2 + 0.9 * width / 7 * INR i))
    /\ b'.(CANNON.velocity) = CANNON.zero
    /\ b'.(CANNON.angularVelocity) = CANNON.zero.
Proof.
  intros Hlen Hb.
  rewrite CarFacts.particles_reset, nth_error_mapi, Hb, Hlen. simpl.
  eexists. split; [reflexivity|].
  unfold frontBumperOffset, frontBumperWidth, CANNON.vadd. simpl.
  unfold resetParticlePos, segments, width, length, height. simpl.
  repeat split; f_equal; lra.
Qed.

(** The engine has pushed the first bumper particle of the sample rig two
    units back; [reset] puts it at its rest offset again. *)
Lemma reset_bumper_witness :
  exists b',
    nth_error
      (reset (physics (fun r b =>
                         match r with
                         | Particle 0 => CANNON.set_position (mkVec3 0 0 0) b
                         | _ => b
                         end)
                      sample)).(frontBumper).(PhysicsWorld.particles) 0
    = Some b'
    /\ b'.(CANNON.position)
       = CANNON.vadd (mkVec3 0 (1 + height) 0) (frontBumperOffset 0)
    /\ b'.(CANNON.velocity) = CANNON.zero.
Proof.
  set (c := physics _ sample).
  destruct (nth_error c.(frontBumper).(PhysicsWorld.particles) 0) as [b|] eqn:Hb;
    [|discriminate Hb].
  destruct (reset_bumper c 0%nat b eq_refl Hb) as (b' & Hnth & Hpos & _ & Hv & _).
  exists b'. repeat split; assumption.
Defined.

(** *** Controls *)

Lemma keyup_released (key : string) (c : t) :
  c.(controls) = released -> c.(steering) = 0 ->
  (keyup key c).(controls) = released /\ (keyup key c).(steering) = 0.
Proof.
  intros Hk Hs. unfold keyup.
  repeat match goal with |- context [if ?b then _ else _] => destruct b end;
    simpl; rewrite ?Hk; auto.
Qed.

Lemma update_released (deltaTime : JSNumber) (c : t) :
  c.(controls) = released -> c.(steering) = 0 ->
  (update deltaTime c).(controls) = released /\ (update deltaTime c).(steering) = 0.
Proof.
  intros Hk Hs. unfold update.
  destruct (isNaN deltaTime || js_le0 deltaTime); [auto|].
  destruct deltaTime as [|dt]; [auto|].
  match goal with |- context [Rlt_dec ?a ?b] => destruct (Rlt_dec a b) end.
  - split; reflexivity.
  - simpl. rewrite Hk, Hs. split; [reflexivity|].
    now apply Steering.steer_noInput_zero.
Qed.

Lemma run_released (es : list event) (c : t) :
  Forall noKeyDown es ->
  c.(controls) = released -> c.(steering) = 0 ->
  (run c es).(controls) = released /\ (run c es).(steering) = 0.
Proof.
  unfold run. revert c.
  induction es as [|e es IH]; intros c Hes Hk Hs; simpl; [auto|].
  inversion Hes as [|? ? He Hrest]; subst.
  destruct e as [key|key| |deltaTime|f]; simpl.
  - contradiction.
  - destruct (keyup_released key c Hk Hs). now apply IH.
  - now apply IH.
  - destruct (update_released deltaTime c Hk Hs). now apply IH.
  - now apply IH.
Qed.

(** C9.  [reset()] sets all five control flags to false and zeroes the
    steering angle and the reported speed, whatever the flags were.  From
    then on, through any sequence of events that contains no key press (key
    releases, frame updates, engine steps, further resets), the flags stay
    false, the steering angle stays 0 and the engine force computed from
    the flags is 0. *)
Theorem reset_releases_controls (c : t) (es : list event) :
  Forall noKeyDown es ->
  (reset c).(controls) = mkControls false false false false false
  /\ (reset c).(steering) = 0
  /\ (reset c).(speed) = 0
  /\ (run (reset c) es).(controls) = mkControls false false false false false
  /\ (run (reset c) es).(steering) = 0
  /\ engineForce (run (reset c) es).(controls) = 0.
Proof.
  intros Hes.
  destruct (run_released es (reset c) Hes eq_refl eq_refl) as [Hk Hs].
  repeat split; auto. rewrite Hk. reflexivity.
Qed.

(** W and A held at the reset; then W is released and a frame runs. *)
Lemma reset_releases_controls_witness :
  (run (reset (set_controls (mkControls true false true false false) sample))
       [KeyUp "w"; Update (Num (1 / 60))]).(controls)
  = mkControls false false false false false.
Proof.
  apply (reset_releases_controls
           (set_controls (mkControls true false true false false) sample)
           [KeyUp "w"; Update (Num (1 / 60))]).
  repeat constructor.
Defined.

End Reset.

(** ** The per-frame update of the rig *)

Module FrameUpdate.
Import Car.

(** The rig as [update] has it just before the floor check. *)
Lemma chassis_before_floor_check (dt : R) (c : t) :
  (set_carBody (updateWheelVisuals (updateDriving dt (updateSteering dt c))).(chassisMesh)
               (updateWheelVisuals (updateDriving dt (updateSteering dt c)))).(chassisBody)
  = c.(chassisBody).
Proof. reflexivity. Qed.

Lemma update_valid (dt : R) (c : t) :
  0 < dt ->
  update (Num dt) c
  = let c4 :=
      set_carBody (updateWheelVisuals (updateDriving dt (updateSteering dt c))).(chassisMesh)
                  (updateWheelVisuals (updateDriving dt (updateSteering dt c))) in
    if Rlt_dec c.(chassisBody).(CANNON.position).(CANNON.y) floorY
    then reset c4 else c4.
Proof.
  intros Hdt. unfold update, js_le0. simpl.
  destruct (Rle_dec dt 0) as [Hle|_]; [lra|]. reflexivity.
Qed.







End FrameUpdate.

(** ** The world update *)

Module WorldUpdate.
Import PhysicsWorld.



End WorldUpdate.

(** ** Soft body: masses and counts *)

Module SoftBodyCounts.
Import CANNON PhysicsWorld.

Lemma totalMass_const (m : R) (positions : list Vec3) :
  Measure.totalMass (map (fun pos => newBody m (mkVec3 pos.(x) pos.(y) pos.(z))) positions)
  = INR (List.length positions) * m.
Proof.
  induction positions as [|p ps IH].
  - simpl. lra.
  - change (List.length (p :: ps)) with (S (List.length ps)).
    rewrite S_INR. simpl Measure.totalMass in *. rewrite IH. simpl. lra.
Qed.

(** The particles of a soft body share the given mass equally, and their
    masses add up to it (for at least one particle). *)
Theorem softBody_mass (positions : list Vec3) (m k d : R) (w : t) :
  positions <> [] ->
  let sb := fst (createSoftBody positions m k d w) in
  (forall b, In b sb.(particles) -> b.(mass) = m / INR (List.length positions))
  /\ Measure.totalMass sb.(particles) = m.
Proof.
  intros Hne sb. unfold sb. rewrite SoftBodyFacts.particles_createSoftBody. split.
  - intros b Hb. apply in_map_iff in Hb. destruct Hb as (p & <- & _). reflexivity.
  - rewrite totalMass_const. field.
    apply not_0_INR. destruct positions; [contradiction|discriminate].
Qed.

Lemma softBody_mass_witness :
  Measure.totalMass
    (fst (createSoftBody [mkVec3 0 0 0; mkVec3 0 0 1; mkVec3 0 0 2]
                         100 1000 0.3 empty)).(particles)
  = 100.
Proof.
  apply (softBody_mass [mkVec3 0 0 0; mkVec3 0 0 1; mkVec3 0 0 2] 100 1000 0.3 empty).
  discriminate.
Defined.

Lemma length_rows (n m a : nat) :
  (a + m = n)%nat ->
  (2 * List.length
         (flat_map (fun i => map (pair i) (seq (S i) (n - S i))) (seq a m))
   = m * (m - 1))%nat.
Proof.
  revert a. induction m as [|m IH]; intros a Ha; simpl; [reflexivity|].
  rewrite length_app, length_map, length_seq.
  specialize (IH (S a) ltac:(lia)).
  replace (n - S a)%nat with m by lia.
  rewrite Nat.sub_0_r. nia.
Qed.

Lemma length_createSprings (bs : list Body) (k d : R) :
  (2 * List.length (createSprings bs k d)
   = List.length bs * (List.length bs - 1))%nat.
Proof.
  rewrite <- (length_map endpoints).
  rewrite SoftBodyFacts.endpoints_createSprings.
  now apply length_rows.
Qed.

Lemma bodies_fold_addBody (bs : list Body) (w : t) :
  (fold_left (fun acc b => snd (addBody b None acc)) bs w).(bodies)
  = w.(bodies) ++ map (fun b => mkTracked b None) bs
  /\ (fold_left (fun acc b => snd (addBody b None acc)) bs w).(postStep)
     = w.(postStep).
Proof.
  revert w. induction bs as [|b bs IH]; intros w.
  - simpl. now rewrite app_nil_r.
  - cbn [fold_left]. destruct (IH (snd (addBody b None w))) as [Hb Hp].
    rewrite Hb, Hp. simpl. now rewrite <- app_assoc.
Qed.

(** A soft body of [n] particles has [n (n - 1) / 2] springs; the world
    gains exactly those [n] bodies, without mesh, after the ones it had, and
    exactly those springs as post-step listeners.  With no position given,
    nothing is created. *)
Theorem softBody_counts (positions : list Vec3) (m k d : R) (w : t) :
  let sb := fst (createSoftBody positions m k d w) in
  let w' := snd (createSoftBody positions m k d w) in
  let n := List.length positions in
  List.length sb.(particles) = n
  /\ (2 * List.length sb.(constraints) = n * (n - 1))%nat
  /\ w'.(bodies) = w.(bodies) ++ map (fun b => mkTracked b None) sb.(particles)
  /\ w'.(postStep) = w.(postStep) ++ sb.(constraints)
  /\ (positions = [] -> sb = mkSoftBody [] [] /\ w' = w).
Proof.
  intros sb w' n.
  assert (Hlen : List.length sb.(particles) = n).
  { unfold sb. rewrite SoftBodyFacts.particles_createSoftBody. apply length_map. }
  split; [exact Hlen|]. split; [|split; [|split]].
  - unfold sb. rewrite SoftBodyFacts.constraints_createSoftBody.
    rewrite length_createSprings. fold sb. now rewrite Hlen.
  - unfold w', sb, createSoftBody. cbn [fst snd bodies postStep particles constraints].
    now destruct (bodies_fold_addBody
                    (map (fun pos => newBody (m / INR (List.length positions))
                                             (mkVec3 pos.(x) pos.(y) pos.(z)))
                         positions) w) as [-> _].
  - unfold w', sb, createSoftBody. cbn [fst snd bodies postStep particles constraints].
    now destruct (bodies_fold_addBody
                    (map (fun pos => newBody (m / INR (List.length positions))
                                             (mkVec3 pos.(x) pos.(y) pos.(z)))
                         positions) w) as [_ ->].
  - intros ->. unfold sb, w', createSoftBody. simpl. split; [reflexivity|].
    destruct w. simpl. now rewrite app_nil_r.
Qed.

End SoftBodyCounts.

(** ** Terrain and height maps *)

Module TerrainFacts.
Import Terrain Utils.

Lemma map_add_seq (k s n : nat) :
  map (fun j => (k + j)%nat) (seq s n) = seq (k + s) n.
Proof.
  revert s. induction n as [|n IH]; intros s; simpl; [reflexivity|].
  rewrite IH. f_equal. f_equal. lia.
Qed.

(** Row-major indexing enumerates the cells in order. *)
Lemma seq_rows (size a n : nat) :
  flat_map (fun i => map (fun j => (i * size + j)%nat) (seq 0 size)) (seq a n)
  = seq (a * size) (n * size).
Proof.
  revert a. induction n as [|n IH]; intros a; simpl; [reflexivity|].
  rewrite IH, seq_app, map_add_seq. f_equal.
  - f_equal. lia.
  - f_equal. lia.
Qed.






(** *** The height map written cell by cell *)

Lemma update_at_app {A : Type} (f : A -> A) (pre : list A) (a : A) (post : list A) :
  update_at (List.length pre) f (pre ++ a :: post) = pre ++ f a :: post.
Proof.
  induction pre as [|p pre IH]; simpl; [reflexivity|]. now rewrite IH.
Qed.

(** Writes at consecutive indices, over cells that exist, replace them in
    order. *)
Lemma writes_in_order {A : Type} (ws : list (nat * A)) (pre old : list A) :
  List.length old = List.length ws ->
  map fst ws = seq (List.length pre) (List.length ws) ->
  fold_left (fun data p => set_at (fst p) (snd p) data) ws (pre ++ old)
  = pre ++ map snd ws.
Proof.
  revert pre old. induction ws as [|[k v] ws IH]; intros pre old Hlen Hidx.
  - destruct old; [reflexivity|discriminate].
  - destruct old as [|o old]; [discriminate|].
    simpl in Hidx. injection Hidx as Hk Hrest. subst k.
    cbn [fold_left fst snd]. unfold set_at at 2. rewrite update_at_app.
    replace (pre ++ v :: old) with ((pre ++ [v]) ++ old) by now rewrite <- app_assoc.
    rewrite IH.
    + now rewrite <- app_assoc.
    + simpl in Hlen. lia.
    + rewrite length_app. simpl. now rewrite Nat.add_1_r.
Qed.

Lemma map_flat_map {A B C : Type} (h : B -> C) (g : A -> list B) (l : list A) :
  map h (flat_map g l) = flat_map (fun i => map h (g i)) l.
Proof.
  induction l as [|i l IH]; simpl; [reflexivity|]. now rewrite map_app, IH.
Qed.

Lemma flat_map_repeat {A B : Type} (b : B) (n : nat) (l : list A) :
  flat_map (fun _ => repeat b n) l = repeat b (List.length l * n).
Proof.
  induction l as [|i l IH]; simpl; [reflexivity|]. now rewrite IH, repeat_app.
Qed.

Lemma fold_left_flat_map {A B C : Type} (f : A -> B -> A) (g : C -> list B)
      (l : list C) (a : A) :
  fold_left f (flat_map g l) a = fold_left (fun acc i => fold_left f (g i) acc) l a.
Proof.
  revert a. induction l as [|i l IH]; intros a; simpl; [reflexivity|].
  now rewrite fold_left_app, IH.
Qed.

Lemma fold_left_pointwise {A B : Type} (f g : A -> B -> A) (l : list B) (a : A) :
  (forall x y, f x y = g x y) -> fold_left f l a = fold_left g l a.
Proof.
  intros Hfg. revert a. induction l as [|y l IH]; intros a; simpl; [reflexivity|].
  now rewrite IH, Hfg.
Qed.

Lemma fold_left_map {A B C : Type} (f : A -> B -> A) (h : C -> B) (l : list C) (a : A) :
  fold_left f (map h l) a = fold_left (fun acc x => f acc (h x)) l a.
Proof.
  revert a. induction l as [|x l IH]; intros a; simpl; [reflexivity|]. apply IH.
Qed.

(** The cells of a height map in row-major order. *)
Lemma heightmap_rows (grid : list (list R)) (gridSize : nat) (heightScale : R) :
  createHeightmapFromGrid grid gridSize heightScale
  = flat_map (fun i => map (fun j => gridCell grid i j * heightScale)
                           (seq 0 (gridSize + 1)))
             (seq 0 (gridSize + 1)).
Proof.
  unfold createHeightmapFromGrid.
  set (size := (gridSize + 1)%nat).
  set (ws := flat_map (fun i => map (fun j => ((i * size + j)%nat,
                                               gridCell grid i j * heightScale))
                                    (seq 0 size))
                      (seq 0 size)).
  assert (Hfst : map fst ws = seq 0 (size * size)).
  { unfold ws. change (seq 0 (size * size)) with (seq (0 * size) (size * size)).
    rewrite <- (seq_rows size 0 size), map_flat_map.
    apply flat_map_ext. intros i. now rewrite map_map. }
  assert (Hsnd : map snd ws
                 = flat_map (fun i => map (fun j => gridCell grid i j * heightScale)
                                          (seq 0 size))
                            (seq 0 size)).
  { unfold ws. rewrite map_flat_map.
    apply flat_map_ext. intros i. now rewrite map_map. }
  assert (Hlen : List.length ws = (size * size)%nat).
  { rewrite <- (length_map fst), Hfst. apply length_seq. }
  rewrite <- Hsnd.
  transitivity (fold_left (fun data p => set_at (fst p) (snd p) data) ws
                          ([] ++ repeat 0 (size * size))).
  - unfold ws. rewrite fold_left_flat_map. simpl app.
    apply fold_left_pointwise. intros data i. now rewrite fold_left_map.
  - rewrite writes_in_order; [reflexivity| |].
    + now rewrite repeat_length.
    + simpl. now rewrite Hlen.
Qed.

Lemma nth_error_rows {A : Type} (f : nat -> nat -> A) (size n a i j : nat) :
  (i < n)%nat -> (j < size)%nat ->
  nth_error (flat_map (fun i => map (f i) (seq 0 size)) (seq a n)) (i * size + j)
  = Some (f (a + i)%nat j).
Proof.
  revert a i. induction n as [|n IH]; intros a i Hi Hj; [lia|].
  simpl. destruct i as [|i].
  - rewrite nth_error_app1 by now rewrite length_map, length_seq.
    simpl. rewrite nth_error_map, nth_error_seq.
    destruct (Nat.ltb_spec j size); [|lia].
    simpl. now rewrite Nat.add_0_r.
  - rewrite nth_error_app2 by (rewrite length_map, length_seq; simpl; lia).
    rewrite length_map, length_seq.
    replace (S i * size + j - size)%nat with (i * size + j)%nat by (simpl; lia).
    rewrite IH by lia. f_equal. f_equal. lia.
Qed.

(** [createHeightmapFromGrid]: the map has [(gridSize + 1)^2] cells; cell
    [i * size + j] holds [grid[i][j] * heightScale], and 0 where the grid has
    no such cell, so an empty grid gives a flat map.  Handed to
    [createTerrainBody] as a square field of side [gridSize + 1], it comes
    back as [matrix[i][j] = grid[i][j] * heightScale]. *)
Theorem heightmap_cells (grid : list (list R)) (gridSize : nat) (heightScale : R) :
  let size := (gridSize + 1)%nat in
  let data := createHeightmapFromGrid grid gridSize heightScale in
  List.length data = (size * size)%nat
  /\ (forall i j : nat,
        (i < size)%nat -> (j < size)%nat ->
        nth_error data (i * size + j) = Some (gridCell grid i j * heightScale)
        /\ nth_error (heightMatrix data size size) i
           = Some (map (fun j => Some (gridCell grid i j * heightScale)) (seq 0 size)))
  /\ (grid = [] -> data = repeat 0 (size * size)).
Proof.
  intros size data.
  assert (Hcell : forall i j : nat,
             (i < size)%nat -> (j < size)%nat ->
             nth_error data (i * size + j) = Some (gridCell grid i j * heightScale)).
  { intros i j Hi Hj. unfold data. rewrite heightmap_rows. fold size.
    now rewrite (nth_error_rows (fun i j => gridCell grid i j * heightScale)
                                size size 0 i j Hi Hj). }
  split; [|split].
  - unfold data. rewrite heightmap_rows. fold size.
    rewrite (flat_map_constant_length (c := size)).
    + now rewrite length_seq.
    + intros i _. now rewrite length_map, length_seq.
  - intros i j Hi Hj. split; [now apply Hcell|].
    unfold heightMatrix. rewrite nth_error_map, nth_error_seq.
    destruct (Nat.ltb_spec i size); [|lia]. simpl. f_equal.
    apply map_ext_in. intros j' Hj'. apply in_seq in Hj'. apply Hcell; lia.
  - intros ->. unfold data. rewrite heightmap_rows. fold size.
    rewrite (flat_map_ext _ (fun _ => repeat 0 size)).
    + rewrite <- (length_seq size 0) at 2. apply flat_map_repeat.
    + intros i. rewrite <- (length_seq size 0) at 2. rewrite <- map_const.
      apply map_ext. intros j. unfold gridCell. destruct i; simpl; lra.
Qed.

End TerrainFacts.

(** ** Helpers of js/utils.js *)

Module UtilsFacts.
Import Utils.

(** Degrees to radians and back, and radians to degrees and back, give the
    number one started from; a half turn is 180 degrees. *)
Theorem degrees_radians_roundtrip (a : R) :
  radToDeg (degToRad a) = a /\ degToRad (radToDeg a) = a /\ degToRad 180 = PI.
Proof.
  unfold radToDeg, degToRad. pose proof PI_neq0 as Hpi.
  repeat split; field; assumption.
Qed.

(** [clamp] with [min <= max] returns a value of [[min, max]], the value
    itself when it already lies there, and clamping twice changes nothing;
    with the bounds swapped ([max < min]) it returns [min] whatever the
    value. *)
Theorem clamp_bounds (value min max : R) :
  (min <= max ->
   min <= clamp value min max <= max
   /\ (min <= value <= max -> clamp value min max = value)
   /\ (value < min -> clamp value min max = min)
   /\ (max < value -> clamp value min max = max)
   /\ clamp (clamp value min max) min max = clamp value min max)
  /\ (max < min -> clamp value min max = min).
Proof.
  unfold clamp, Rmax, Rmin.
  split; intros H;
    repeat match goal with
           | |- context [Rle_dec ?a ?b] => destruct (Rle_dec a b)
           | Hn : context [Rle_dec ?a ?b] |- _ => destruct (Rle_dec a b)
           end;
    repeat split; intros; lra.
Qed.

Lemma clamp_bounds_witness : 0 <= clamp 7 0 5 <= 5.
Proof.
  apply (proj1 (clamp_bounds 7 0 5)). lra.
Defined.



End UtilsFacts.

(** ** Keyboard *)

Module Keyboard.
Import Car Keys.




End Keyboard.

(** ** More on steering *)

Module SteeringMore.
Import Car.

Ltac minmaxs :=
  unfold Rmin, Rmax;
  repeat match goal with
         | |- context [Rle_dec ?a ?b] => destruct (Rle_dec a b)
         | |- context [Rgt_dec ?a ?b] => destruct (Rgt_dec a b)
         | |- context [Rlt_dec ?a ?b] => destruct (Rlt_dec a b)
         | H : context [Rle_dec ?a ?b] |- _ => destruct (Rle_dec a b)
         | H : context [Rgt_dec ?a ?b] |- _ => destruct (Rgt_dec a b)
         | H : context [Rlt_dec ?a ?b] |- _ => destruct (Rlt_dec a b)
         end.










(** One [updateSteering] call with a non-negative [deltaTime] moves an
    angle of [[-0.5, 0.5]] by at most [2.0 * deltaTime] while left or right
    is held and by at most [3.0 * deltaTime] otherwise.  With the frame
    driver's [deltaTime], capped at 0.1 s, that is at most 0.3 rad a frame. *)
Theorem steering_rate_limited (k : Controls) (s dt time lastTime : R) :
  -0.5 <= s <= 0.5 ->
  0 <= dt ->
  (k.(left) = true \/ k.(right) = true -> Rabs (steer k s dt - s) <= 2.0 * dt)
  /\ Rabs (steer k s dt - s) <= 3.0 * dt
  /\ (lastTime <= time ->
      Rabs (steer k s (Main.frameDeltaTime time lastTime) - s) <= 0.3).
Proof.
  intros Hs Hdt.
  assert (Hgen : forall d, 0 <= d ->
                           (k.(left) = true \/ k.(right) = true ->
                            Rabs (steer k s d - s) <= 2.0 * d)
                           /\ Rabs (steer k s d - s) <= 3.0 * d).
  { intros d Hd. unfold steer, steeringSpeed, steeringReturnSpeed, maxSteeringAngle.
    split.
    - intros [Hl | Hr].
      + rewrite Hl. apply Rabs_le. minmaxs; lra.
      + rewrite Hr. destruct (left k); apply Rabs_le; minmaxs; lra.
    - destruct (left k); [|destruct (right k)];
        apply Rabs_le; minmaxs; lra. }
  destruct (Hgen dt Hdt) as [H2 H3]. split; [exact H2|]. split; [exact H3|].
  intros Ht.
  assert (Hf : 0 <= Main.frameDeltaTime time lastTime <= 0.1).
  { unfold Main.frameDeltaTime, Rmin. destruct (Rle_dec _ _); lra. }
  destruct (Hgen _ (proj1 Hf)) as [_ H]. lra.
Qed.

Lemma steering_rate_limited_witness :
  Rabs (steer (set_left true released) 0 (1 / 60) - 0) <= 3.0 * (1 / 60).
Proof.
  apply (proj1 (proj2 (steering_rate_limited (set_left true released) 0 (1 / 60) 0 0
                         ltac:(lra) ltac:(lra)))).
Defined.

(** *** The orientation of the front wheels *)

Lemma normSq_mult (a b : CANNON.Quaternion) :
  Measure.normSq (CANNON.mult a b) = Measure.normSq a * Measure.normSq b.
Proof. unfold Measure.normSq, CANNON.mult. simpl. ring. Qed.

Lemma normSq_setFromAxisAngle (axis : Vec3) (angle : R) :
  axis.(CANNON.x) * axis.(CANNON.x) + axis.(CANNON.y) * axis.(CANNON.y)
  + axis.(CANNON.z) * axis.(CANNON.z) = 1 ->
  Measure.normSq (CANNON.setFromAxisAngle axis angle) = 1.
Proof.
  intros Haxis. unfold Measure.normSq, CANNON.setFromAxisAngle. simpl.
  pose proof (sin2_cos2 (angle * 0.5)) as H. unfold Rsqr in H.
  set (sn := sin (angle * 0.5)) in *. set (cs := cos (angle * 0.5)) in *.
  replace (CANNON.x axis * sn * (CANNON.x axis * sn)
           + CANNON.y axis * sn * (CANNON.y axis * sn)
           + CANNON.z axis * sn * (CANNON.z axis * sn) + cs * cs)
    with ((CANNON.x axis * CANNON.x axis + CANNON.y axis * CANNON.y axis
           + CANNON.z axis * CANNON.z axis) * (sn * sn) + cs * cs) by ring.
  rewrite Haxis. lra.
Qed.

Lemma wheelBodies_updateSteering (dt : R) (c : t) :
  (updateSteering dt c).(wheelBodies)
  = update_at 1 (CANNON.set_quaternion (steeredQuat (updateSteering dt c).(steering)))
      (update_at 0 (CANNON.set_quaternion (steeredQuat (updateSteering dt c).(steering)))
                 c.(wheelBodies)).
Proof. reflexivity. Qed.

(** [updateSteering] turns the two front wheels, and only them: both get
    the same orientation, the steering rotation about the vertical axis
    composed with the rest orientation, which is a rotation (unit
    quaternion) for every steering angle; nothing else of a front wheel
    changes, and the rear wheels are left as they were. *)
Theorem front_wheels_steered (dt : R) (c : t) :
  let c' := updateSteering dt c in
  (forall i : nat,
      (i < 2)%nat ->
      nth_error c'.(wheelBodies) i
      = option_map (CANNON.set_quaternion (steeredQuat c'.(steering)))
                   (nth_error c.(wheelBodies) i))
  /\ (forall i : nat,
        (2 <= i)%nat -> nth_error c'.(wheelBodies) i = nth_error c.(wheelBodies) i)
  /\ Measure.normSq (steeredQuat c'.(steering)) = 1
  /\ c' = set_wheelBodies c'.(wheelBodies) (set_steering c'.(steering) c).
Proof.
  intros c'. unfold c'. rewrite wheelBodies_updateSteering. repeat split.
  - intros i Hi. destruct i as [|[|i]]; [| |lia].
    + rewrite nth_error_update_at_neq by discriminate.
      apply nth_error_update_at_eq.
    + rewrite nth_error_update_at_eq.
      now rewrite nth_error_update_at_neq by discriminate.
  - intros i Hi. rewrite !nth_error_update_at_neq by lia. reflexivity.
  - unfold steeredQuat. rewrite normSq_mult.
    unfold defaultQuat. rewrite !normSq_setFromAxisAngle; simpl; lra.
Qed.

End SteeringMore.

(** ** More on driving *)

Module DrivingMore.
Import Car.



Lemma vadd_zero_r (v : Vec3) (s : R) (u : Vec3) :
  s = 0 -> CANNON.vadd v (CANNON.scale u s) = v.
Proof.
  intros ->. destruct v. unfold CANNON.vadd, CANNON.scale. simpl. f_equal; ring.
Qed.




(** [updateDriving] writes nothing of a rear wheel but its force
    accumulator and its two damping coefficients: the push acts at the
    wheel's own position, so it adds no torque, and mass, position,
    orientation and velocities stay as they were. *)
Theorem driving_adds_no_torque (k : Controls) (wb : Body) :
  (driveWheel k wb).(CANNON.torque) = wb.(CANNON.torque)
  /\ (driveWheel k wb).(CANNON.quaternion) = wb.(CANNON.quaternion)
  /\ Measure.sameMotion wb (driveWheel k wb).
Proof.
  unfold driveWheel, Measure.sameMotion.
  destruct (Req_dec_T (engineForce k) 0) as [H0|Hne].
  - destruct (brake k); repeat split.
  - destruct (brake k); simpl; repeat split;
      destruct (CANNON.torque wb); unfold CANNON.vadd, CANNON.cross, CANNON.vsub;
      simpl; f_equal; ring.
Qed.

(** The local +X axis of a wheel in its rest orientation is world +Y. *)
Lemma forwardDir_defaultQuat :
  CANNON.vmult defaultQuat (mkVec3 1 0 0) = mkVec3 0 1 0.
Proof.
  unfold defaultQuat, CANNON.setFromAxisAngle, CANNON.vmult. simpl.
  pose proof (sin_2a (PI / 2 * 0.5)) as Hs.
  pose proof (cos_2a (PI / 2 * 0.5)) as Hc.
  replace (2 * (PI / 2 * 0.5)) with (PI / 2) in Hs, Hc by lra.
  rewrite sin_PI2 in Hs. rewrite cos_PI2 in Hc.
  f_equal; nra.
Qed.

(** Right after [reset()], with W pressed, [updateDriving] pushes each rear
    wheel with 500 N straight up (world +Y): the rest orientation turns the
    wheel's local +X axis onto the vertical.  [reset] itself leaves the
    force accumulator of a wheel as it was. *)
Theorem forward_push_after_reset (dt : R) (c : t) (i : nat) (wb : Body) :
  i = 2%nat \/ i = 3%nat ->
  nth_error c.(wheelBodies) i = Some wb ->
  exists wr wb',
    nth_error (reset c).(wheelBodies) i = Some wr
    /\ wr.(CANNON.force) = wb.(CANNON.force)
    /\ nth_error (updateDriving dt (keydown "w" (reset c))).(wheelBodies) i = Some wb'
    /\ wb'.(CANNON.force) = CANNON.vadd wr.(CANNON.force) (mkVec3 0 500 0).
Proof.
  intros Hi Hwb.
  assert (Hr : exists wr, nth_error (reset c).(wheelBodies) i = Some wr
                          /\ wr.(CANNON.force) = wb.(CANNON.force)
                          /\ wr.(CANNON.quaternion) = defaultQuat).
  { rewrite CarFacts.wheelBodies_reset, nth_error_map, nth_error_mapi, Hwb. simpl.
    eexists. repeat split. }
  destruct Hr as (wr & Hwr & Hf & Hq).
  exists wr, (driveWheel (keydown "w" (reset c)).(controls) wr).
  split; [exact Hwr|]. split; [exact Hf|]. split.
  - rewrite Driving.rear_wheel_updateDriving by assumption.
    change (wheelBodies (keydown "w" (reset c))) with (wheelBodies (reset c)).
    now rewrite Hwr.
  - rewrite Driving.driveWheel_pushed.
    + change (engineForce (controls (keydown "w" (reset c)))) with maxForce.
      unfold forwardDir. rewrite Hq, forwardDir_defaultQuat.
      unfold CANNON.scale, maxForce. simpl. f_equal. f_equal; lra.
    + change (engineForce (controls (keydown "w" (reset c)))) with maxForce.
      unfold maxForce. lra.
Qed.

Lemma forward_push_after_reset_witness :
  exists wr wb',
    nth_error (reset sample).(wheelBodies) 2 = Some wr
    /\ nth_error (updateDriving (1 / 60) (keydown "w" (reset sample))).(wheelBodies) 2
       = Some wb'
    /\ wb'.(CANNON.force) = CANNON.vadd wr.(CANNON.force) (mkVec3 0 500 0).
Proof.
  destruct (nth_error sample.(wheelBodies) 2) as [wb|] eqn:Hwb; [|discriminate Hwb].
  destruct (forward_push_after_reset (1 / 60) sample 2%nat wb (or_introl eq_refl) Hwb)
    as (wr & wb' & H1 & _ & H2 & H3).
  exists wr, wb'. repeat split; assumption.
Defined.

End DrivingMore.

(** ** More on the per-frame update *)

Module UpdateMore.
Import Car.

Lemma sameMotion_refl (b : Body) : Measure.sameMotion b b.
Proof. repeat split. Qed.

Lemma Forall2_update_at (P : Body -> Body -> Prop) (i : nat) (f : Body -> Body)
      (l : list Body) :
  (forall b, P b b) -> (forall b, P b (f b)) -> Forall2 P l (update_at i f l).
Proof.
  intros Hrefl Hf. revert i.
  induction l as [|a l IH]; intros [|i]; simpl; constructor; auto.
  clear IH. induction l; constructor; auto.
Qed.

Lemma Forall2_sameMotion_trans (a b c : list Body) :
  Forall2 Measure.sameMotion a b -> Forall2 Measure.sameMotion b c ->
  Forall2 Measure.sameMotion a c.
Proof.
  intros Hab. revert c. induction Hab as [|x y a b Hxy _ IH]; intros c Hbc.
  - inversion Hbc. constructor.
  - inversion Hbc as [|? z ? c' Hyz Hbc']; subst. constructor; [|now apply IH].
    unfold Measure.sameMotion in *. intuition congruence.
Qed.

Lemma sameMotion_set_quaternion (q : CANNON.Quaternion) (b : Body) :
  Measure.sameMotion b (CANNON.set_quaternion q b).
Proof. repeat split. Qed.

Lemma wheels_after_update (dt : R) (c : t) :
  Forall2 Measure.sameMotion c.(wheelBodies)
          (updateDriving dt (updateSteering dt c)).(wheelBodies).
Proof.
  rewrite Driving.wheelBodies_updateDriving.
  change (wheelBodies (updateSteering dt c))
    with (update_at 1 (CANNON.set_quaternion (steeredQuat (updateSteering dt c).(steering)))
            (update_at 0 (CANNON.set_quaternion
                            (steeredQuat (updateSteering dt c).(steering)))
                       c.(wheelBodies))).
  do 3 (eapply Forall2_sameMotion_trans;
          [|apply Forall2_update_at;
            [apply sameMotion_refl
            |first [apply sameMotion_set_quaternion
                   |intros b; apply DrivingMore.driving_adds_no_torque]]]).
  apply Forall2_update_at with (i := 0%nat);
    [apply sameMotion_refl|apply sameMotion_set_quaternion].
Qed.

Lemma wheelMeshes_updateWheelVisuals (c : t) (i : nat) :
  nth_error (updateWheelVisuals c).(wheelMeshes) i
  = option_map
      (fun wheelMesh =>
         match nth_error c.(wheelBodies) i with
         | Some wheelBody =>
             THREE.mkMesh (cannonToThreeVector wheelBody.(CANNON.position))
                          wheelBody.(CANNON.quaternion)
         | None => wheelMesh
         end)
      (nth_error c.(wheelMeshes) i).
Proof. unfold updateWheelVisuals. apply nth_error_mapi. Qed.

(** A [Car.update] with a valid [deltaTime] on a rig that is not below the
    floor moves nothing: chassis and bumper are untouched, every wheel keeps
    its mass, position and velocities, and the control flags stay as they
    are.  The angle becomes the steered one, every wheel mesh shows the
    position and orientation of its wheel, and the car body mesh follows the
    chassis mesh. *)
Theorem update_moves_no_body (dt : R) (c : t) :
  0 < dt ->
  ~ c.(chassisBody).(CANNON.position).(CANNON.y) < -10 ->
  let c' := update (Num dt) c in
  c'.(chassisBody) = c.(chassisBody)
  /\ c'.(frontBumper) = c.(frontBumper)
  /\ Forall2 Measure.sameMotion c.(wheelBodies) c'.(wheelBodies)
  /\ c'.(controls) = c.(controls)
  /\ c'.(steering) = steer c.(controls) c.(steering) dt
  /\ c'.(carBody) = c'.(chassisMesh)
  /\ (forall (i : nat) (wb : Body) (m : THREE.Mesh),
        nth_error c'.(wheelBodies) i = Some wb ->
        nth_error c'.(wheelMeshes) i = Some m ->
        m.(THREE.position) = wb.(CANNON.position)
        /\ m.(THREE.quaternion) = wb.(CANNON.quaternion)).
Proof.
  intros Hdt Hy c'. unfold c'. rewrite FrameUpdate.update_valid by assumption.
  cbv zeta.
  destruct (Rlt_dec c.(chassisBody).(CANNON.position).(CANNON.y) floorY) as [Hlt|_];
    [unfold floorY in Hlt; contradiction|].
  split; [reflexivity|]. split; [reflexivity|].
  split; [apply wheels_after_update|].
  split; [reflexivity|]. split; [reflexivity|]. split; [reflexivity|].
  intros i wb m Hwb Hm.
  set (x := updateDriving dt (updateSteering dt c)) in *.
  change (nth_error (wheelBodies x) i = Some wb) in Hwb.
  change (nth_error (wheelMeshes (updateWheelVisuals x)) i = Some m) in Hm.
  rewrite wheelMeshes_updateWheelVisuals, Hwb in Hm.
  destruct (nth_error (wheelMeshes x) i) as [m0|]; [|discriminate Hm].
  injection Hm as <-. simpl. split; [|reflexivity].
  unfold cannonToThreeVector. now destruct (CANNON.position wb).
Qed.

(** The sample rig, W held, one frame of 1/60 s. *)
Lemma update_moves_no_body_witness :
  (update (Num (1 / 60)) (keydown "w" sample)).(chassisBody)
  = (keydown "w" sample).(chassisBody).
Proof.
  apply (update_moves_no_body (1 / 60) (keydown "w" sample)).
  - lra.
  - simpl. lra.
Defined.



End UpdateMore.

(** ** Construction and reset of the whole rig *)

Module Layout.
Import Car.

(** A new rig, whatever the spawn position and the world: the chassis is at
    the spawn position itself (the minimum start height of [createChassis]
    is overwritten by [init]), wheel [i] is at the spawn position plus
    [wheelPositions[i]] in its rest orientation, particle [i] is at the spawn
    position plus its rest offset, every body is at rest, no key is held,
    and the world has gained 13 bodies and 28 springs. *)
Theorem new_rig_layout (pos : Vec3) (w : PhysicsWorld.t) :
  let c := fst (new pos w) in
  let w' := snd (new pos w) in
  c.(chassisBody).(CANNON.position) = pos
  /\ c.(chassisBody).(CANNON.velocity) = CANNON.zero
  /\ (forall (i : nat) (offset : Vec3),
        nth_error wheelOffsets i = Some offset ->
        exists wb,
          nth_error c.(wheelBodies) i = Some wb
          /\ wb.(CANNON.position) = CANNON.vadd pos offset
          /\ wb.(CANNON.quaternion) = defaultQuat
          /\ wb.(CANNON.velocity) = CANNON.zero
          /\ wb.(CANNON.angularVelocity) = CANNON.zero)
  /\ (forall i : nat,
        (i < segments)%nat ->
        exists b,
          nth_error c.(frontBumper).(PhysicsWorld.particles) i = Some b
          /\ b.(CANNON.position) = CANNON.vadd pos (frontBumperOffset i)
          /\ b.(CANNON.velocity) = CANNON.zero
          /\ b.(CANNON.mass) = 100 / 8)
  /\ c.(controls) = released /\ c.(steering) = 0 /\ c.(speed) = 0
  /\ List.length w'.(PhysicsWorld.bodies)
     = (List.length w.(PhysicsWorld.bodies) + 13)%nat
  /\ List.length w'.(PhysicsWorld.postStep)
     = (List.length w.(PhysicsWorld.postStep) + 28)%nat.
Proof.
  intros c w'. split; [|split; [|split; [|split]]].
  - unfold c. simpl. now destruct pos.
  - reflexivity.
  - intros i offset Hoff.
    do 4 (destruct i as [|i]; [injection Hoff as <-; eexists; repeat split|]).
    destruct i; discriminate Hoff.
  - intros i Hi. unfold segments in Hi.
    do 8 (destruct i as [|i];
          [eexists; split; [reflexivity|]; repeat split; simpl; lra|]).
    lia.
  - split; [reflexivity|]. split; [reflexivity|]. split; [reflexivity|].
    unfold w', new. simpl. rewrite !length_app. simpl. split; lia.
Qed.

(** [reset()] on a new rig lifts the whole rig by the car height and changes
    no other coordinate: the chassis, each wheel and each bumper particle end
    up exactly [height] = 1.4 above where the constructor put them. *)
Theorem reset_lifts_new_rig (pos : Vec3) (w : PhysicsWorld.t) :
  let c := fst (new pos w) in
  let up := mkVec3 0 height 0 in
  (reset c).(chassisBody).(CANNON.position)
  = CANNON.vadd c.(chassisBody).(CANNON.position) up
  /\ (forall (i : nat) (wb : Body),
        nth_error c.(wheelBodies) i = Some wb ->
        exists wb',
          nth_error (reset c).(wheelBodies) i = Some wb'
          /\ wb'.(CANNON.position) = CANNON.vadd wb.(CANNON.position) up)
  /\ (forall (i : nat) (b : Body),
        nth_error c.(frontBumper).(PhysicsWorld.particles) i = Some b ->
        exists b',
          nth_error (reset c).(frontBumper).(PhysicsWorld.particles) i = Some b'
          /\ b'.(CANNON.position) = CANNON.vadd b.(CANNON.position) up)
  /\ height = 1.4.
Proof.
  intros c up. split; [|split; [|split; [|reflexivity]]].
  - unfold c, up, CANNON.vadd. simpl. f_equal; lra.
  - intros i wb Hwb.
    do 4 (destruct i as [|i];
          [injection Hwb as <-; eexists; split; [reflexivity|];
           unfold up, CANNON.vadd; simpl; unfold wheelWorldPos; simpl;
           f_equal; lra|]).
    destruct i; discriminate Hwb.
  - intros i b Hb.
    do 8 (destruct i as [|i];
          [injection Hb as <-; eexists; split; [reflexivity|];
           unfold up, CANNON.vadd; simpl;
           unfold resetParticlePos, frontBumperWidth, width, length, height; simpl;
           f_equal; lra|]).
    destruct i; discriminate Hb.
Qed.

Lemma map_mapi_idem {A : Type} (f : A -> A) (g g' : nat -> A -> A) (l : list A) (k : nat) :
  (forall i a, f (g' i (f (g i a))) = f (g i a)) ->
  map f (mapi_from k g' (map f (mapi_from k g l))) = map f (mapi_from k g l).
Proof.
  intros H. revert k. induction l as [|a l IH]; intros k; simpl; [reflexivity|].
  now rewrite H, IH.
Qed.

Lemma mapi_idem {A : Type} (g g' : nat -> A -> A) (l : list A) (k : nat) :
  (forall i a, g' i (g i a) = g i a) ->
  mapi_from k g' (mapi_from k g l) = mapi_from k g l.
Proof.
  intros H. revert k. induction l as [|a l IH]; intros k; simpl; [reflexivity|].
  now rewrite H, IH.
Qed.

Lemma car_ext (a b : t) :
  a.(position) = b.(position) -> a.(controls) = b.(controls) ->
  a.(speed) = b.(speed) -> a.(steering) = b.(steering) ->
  a.(chassisBody) = b.(chassisBody) -> a.(chassisMesh) = b.(chassisMesh) ->
  a.(carBody) = b.(carBody) -> a.(wheelPositions) = b.(wheelPositions) ->
  a.(wheelMeshes) = b.(wheelMeshes) -> a.(wheelBodies) = b.(wheelBodies) ->
  a.(frontBumper) = b.(frontBumper) ->
  a = b.
Proof.
  destruct a, b. simpl. intros. subst. reflexivity.
Qed.

Lemma wheelMeshes_reset (c : t) :
  (reset c).(wheelMeshes)
  = mapi (fun i m =>
            if (i <? List.length c.(wheelBodies))%nat
            then set_meshPosition
                   (cannonToThreeVector
                      (wheelWorldPos (set_chassisBody (reset c).(chassisBody) c) i)) m
            else m)
         c.(wheelMeshes).
Proof. reflexivity. Qed.

Lemma frontBumper_reset (c : t) :
  (reset c).(frontBumper)
  = PhysicsWorld.mkSoftBody
      (mapi (resetParticle (reset c).(chassisBody).(CANNON.position)
                           (List.length c.(frontBumper).(PhysicsWorld.particles)))
            c.(frontBumper).(PhysicsWorld.particles))
      c.(frontBumper).(PhysicsWorld.constraints).
Proof. reflexivity. Qed.

(** [reset()] is idempotent: a second reset right after a first changes
    nothing, on any rig. *)
Theorem reset_idempotent (c : t) : reset (reset c) = reset c.
Proof.
  apply car_ext; try reflexivity.
  - rewrite (wheelMeshes_reset (reset c)), (wheelMeshes_reset c).
    assert (Hl : List.length (reset c).(wheelBodies) = List.length c.(wheelBodies)).
    { rewrite CarFacts.wheelBodies_reset. now rewrite length_map, length_mapi. }
    rewrite Hl. unfold mapi. apply mapi_idem.
    intros i m. destruct (i <? List.length (wheelBodies c))%nat; reflexivity.
  - rewrite (CarFacts.wheelBodies_reset (reset c)), (CarFacts.wheelBodies_reset c).
    unfold mapi. apply map_mapi_idem. intros i a. reflexivity.
  - rewrite (frontBumper_reset (reset c)), (frontBumper_reset c).
    cbn [PhysicsWorld.particles PhysicsWorld.constraints].
    rewrite length_mapi. f_equal.
    unfold mapi. apply mapi_idem. intros i a. reflexivity.
Qed.

End Layout.

(** ** The first [Car] class of js/car.js *)

Module LegacyFacts.
Import Car.

Lemma nth_error_update_at {A : Type} (k i : nat) (f : A -> A) (l : list A) :
  nth_error (update_at k f l) i
  = if (k =? i)%nat then option_map f (nth_error l i) else nth_error l i.
Proof.
  destruct (Nat.eqb_spec k i) as [->|Hne].
  - apply nth_error_update_at_eq.
  - now apply nth_error_update_at_neq.
Qed.

Lemma legacy_wheelBodies_updateDriving (dt : R) (c : t) :
  (LegacyCar.updateDriving dt c).(wheelBodies)
  = LegacyCar.setBrake (LegacyCar.appliedBrake c.(controls)) 3
      (LegacyCar.setBrake (LegacyCar.appliedBrake c.(controls)) 2
        (LegacyCar.setBrake (LegacyCar.appliedBrake c.(controls)) 1
          (LegacyCar.setBrake (LegacyCar.appliedBrake c.(controls)) 0
            (LegacyCar.applyEngineForce (LegacyCar.engineForce c.(controls)) 3
              (LegacyCar.applyEngineForce (LegacyCar.engineForce c.(controls)) 2
                 c.(wheelBodies)))))).
Proof. reflexivity. Qed.

Lemma brake_damping (k : Controls) :
  (if Rgt_dec (LegacyCar.appliedBrake k) 0 then 0.9 else 0.0)
  = if k.(brake) then 0.9 else 0.0.
Proof.
  unfold LegacyCar.appliedBrake, brakingForce.
  destruct (brake k); destruct (Rgt_dec _ _); lra.
Qed.

(** In the first [Car] class, [updateDriving] lets the brake override the
    engine: with brake held no force reaches any wheel, whatever W and S
    say, and every wheel gets angular damping 0.9; with brake released every
    wheel gets angular damping 0, the front wheels receive no force, and each
    rear wheel is pushed along its local +X axis with [+maxForce] forward and
    the full [-maxForce] in reverse.  No call adds torque. *)
Theorem legacy_brake_overrides_engine (dt : R) (c : t) (i : nat) (wb : Body) :
  (i < 4)%nat ->
  nth_error c.(wheelBodies) i = Some wb ->
  let k := c.(controls) in
  exists wb',
    nth_error (LegacyCar.updateDriving dt c).(wheelBodies) i = Some wb'
    /\ wb'.(CANNON.angularDamping) = (if k.(brake) then 0.9 else 0.0)
    /\ wb'.(CANNON.torque) = wb.(CANNON.torque)
    /\ (k.(brake) = true -> wb'.(CANNON.force) = wb.(CANNON.force))
    /\ ((i < 2)%nat -> wb'.(CANNON.force) = wb.(CANNON.force))
    /\ ((2 <= i)%nat -> k.(brake) = false -> k.(forward) = true ->
        wb'.(CANNON.force)
        = CANNON.vadd wb.(CANNON.force) (CANNON.scale (forwardDir wb) maxForce))
    /\ ((2 <= i)%nat -> k.(brake) = false -> k.(forward) = false ->
        k.(backward) = true ->
        wb'.(CANNON.force)
        = CANNON.vadd wb.(CANNON.force) (CANNON.scale (forwardDir wb) (- maxForce))).
Proof.
  intros Hi Hwb k. subst k.
  rewrite legacy_wheelBodies_updateDriving.
  unfold LegacyCar.setBrake, LegacyCar.applyEngineForce.
  rewrite !nth_error_update_at, Hwb, brake_damping.
  assert (Htorque : forall (f : R) (b : Body),
             (CANNON.applyForce (CANNON.scale (forwardDir b) f) b.(CANNON.position) b)
               .(CANNON.torque) = b.(CANNON.torque)).
  { intros f b. unfold CANNON.applyForce, CANNON.vadd, CANNON.cross, CANNON.vsub.
    simpl. destruct (CANNON.torque b). simpl. f_equal; ring. }
  assert (Hzero : forall b : Body,
             (CANNON.applyForce (CANNON.scale (forwardDir b) 0) b.(CANNON.position) b)
               .(CANNON.force) = b.(CANNON.force)).
  { intros b. unfold CANNON.applyForce. simpl.
    now apply DrivingMore.vadd_zero_r. }
  set (e := LegacyCar.engineForce (controls c)) in *.
  assert (He : (brake (controls c) = true -> e = 0)
               /\ (brake (controls c) = false -> forward (controls c) = true ->
                   e = maxForce)
               /\ (brake (controls c) = false -> forward (controls c) = false ->
                   backward (controls c) = true -> e = - maxForce)).
  { unfold e, LegacyCar.engineForce. repeat split; intros.
    - now rewrite H.
    - now rewrite H, H0.
    - now rewrite H, H0, H1. }
  destruct He as (Hbr & Hfw & Hbw). clearbody e.
  destruct i as [|[|[|[|i]]]]; [| | | |lia]; simpl;
    eexists; (split; [reflexivity|]); simpl;
    (split; [reflexivity|]);
    (split; [first [reflexivity | apply (Htorque e wb)]|]);
    repeat split; intros; try lia; try reflexivity.
  all: try (rewrite Hbr by assumption; apply Hzero).
  all: try (rewrite Hfw by assumption; reflexivity).
  all: try (rewrite Hbw by assumption; reflexivity).
Qed.

(** W and the space bar held on the sample rig: the rear-left wheel gets no
    force. *)
Lemma legacy_brake_overrides_engine_witness :
  exists wb wb',
    nth_error forwardBraking.(wheelBodies) 2 = Some wb
    /\ nth_error (LegacyCar.updateDriving (1 / 60) forwardBraking).(wheelBodies) 2
       = Some wb'
    /\ wb'.(CANNON.force) = wb.(CANNON.force).
Proof.
  destruct (nth_error forwardBraking.(wheelBodies) 2) as [wb|] eqn:Hwb;
    [|discriminate Hwb].
  destruct (legacy_brake_overrides_engine (1 / 60) forwardBraking 2%nat wb
              ltac:(lia) Hwb)
    as (wb' & Hnth & _ & _ & Hbrake & _).
  exists wb, wb'. split; [reflexivity|]. split; [exact Hnth|].
  apply Hbrake. reflexivity.
Defined.

(** In the first [Car] class, [reset()] puts the chassis at the spawn
    position and every wheel at that same point, with identity orientation
    and zero velocities: the wheel offsets are not applied.  Bumper particle
    [i] of eight goes to [(x + length/2 + 0.1, y - height/3,
    z - width/2 + i * width/7)], an arc across the full width, which for no
    [i] is the rest offset (across 0.9 of the width) it was created and
    tethered at. *)
Theorem legacy_reset_layout (c : t) :
  List.length c.(frontBumper).(PhysicsWorld.particles) = segments ->
  let r := LegacyCar.reset c in
  let pos := c.(position) in
  r.(chassisBody).(CANNON.position) = pos
  /\ (forall (i : nat) (wb : Body),
        nth_error c.(wheelBodies) i = Some wb ->
        exists wb',
          nth_error r.(wheelBodies) i = Some wb'
          /\ wb'.(CANNON.position) = pos
          /\ wb'.(CANNON.quaternion) = CANNON.identity
          /\ wb'.(CANNON.velocity) = CANNON.zero
          /\ wb'.(CANNON.angularVelocity) = CANNON.zero)
  /\ (forall (i : nat) (b : Body),
        nth_error c.(frontBumper).(PhysicsWorld.particles) i = Some b ->
        exists b',
          nth_error r.(frontBumper).(PhysicsWorld.particles) i = Some b'
          /\ b'.(CANNON.position)
             = mkVec3 (pos.(CANNON.x) + length / 2 + 0.1)
                      (pos.(CANNON.y) - height / 3)
                      (pos.(CANNON.z) - width / 2 + width / 7 * INR i)
          /\ b'.(CANNON.position) <> CANNON.vadd pos (frontBumperOffset i)
          /\ b'.(CANNON.velocity) = CANNON.zero)
  /\ r.(controls) = released /\ r.(steering) = 0 /\ r.(speed) = 0.
Proof.
  intros Hlen r pos.
  assert (Hpos : mkVec3 pos.(CANNON.x) pos.(CANNON.y) pos.(CANNON.z) = pos)
    by now destruct pos.
  split; [exact Hpos|]. split; [|split; [|repeat split]].
  - intros i wb Hwb.
    exists (LegacyCar.resetWheel pos wb). split.
    + unfold r, LegacyCar.reset.
      cbn [wheelBodies set_steering set_speed set_controls set_frontBumper
           set_wheelBodies].
      rewrite nth_error_map, Hwb. cbn [option_map]. f_equal. f_equal. exact Hpos.
    + repeat split.
  - intros i b Hb.
    assert (Hnth : nth_error r.(frontBumper).(PhysicsWorld.particles) i
                   = Some (CANNON.set_angularVelocity CANNON.zero
                             (CANNON.set_velocity CANNON.zero
                               (CANNON.set_position
                                  (LegacyCar.resetParticlePos pos segments i) b)))).
    { unfold r, LegacyCar.reset.
      cbn [frontBumper set_steering set_speed set_controls set_frontBumper
           PhysicsWorld.particles].
      now rewrite nth_error_mapi, Hb, Hlen. }
    eexists. split; [exact Hnth|].
    cbn [CANNON.position CANNON.velocity CANNON.set_angularVelocity
         CANNON.set_velocity CANNON.set_position].
    split; [|split; [|reflexivity]].
    + unfold LegacyCar.resetParticlePos, segments. simpl. f_equal. lra.
    + intros Heq. apply (f_equal CANNON.z) in Heq.
      unfold LegacyCar.resetParticlePos, frontBumperOffset, frontBumperWidth,
        CANNON.vadd, segments, width in Heq.
      simpl in Heq.
      assert (H2 : INR (2 * i) = INR 7).
      { rewrite mult_INR. simpl. lra. }
      apply INR_eq in H2. lia.
Qed.

(** The sample rig: its first bumper particle after the legacy reset. *)
Lemma legacy_reset_layout_witness :
  exists b',
    nth_error (LegacyCar.reset sample).(frontBumper).(PhysicsWorld.particles) 0 = Some b'
    /\ b'.(CANNON.position) <> CANNON.vadd sample.(position) (frontBumperOffset 0).
Proof.
  destruct (nth_error sample.(frontBumper).(PhysicsWorld.particles) 0) as [b|] eqn:Hb;
    [|discriminate Hb].
  destruct (proj1 (proj2 (proj2 (legacy_reset_layout sample eq_refl))) 0%nat b Hb)
    as (b' & Hnth & _ & Hne & _).
  exists b'. split; assumption.
Defined.

End LegacyFacts.

(** ** The world update: meshes follow bodies *)

Module WorldSync.
Import PhysicsWorld.

Lemma syncMesh_body (tb : Tracked) : (syncMesh tb).(body) = tb.(body).
Proof. unfold syncMesh. now destruct (userData tb). Qed.

Lemma syncMesh_synced (tb : Tracked) (m : THREE.Mesh) :
  (syncMesh tb).(userData) = Some m ->
  m.(THREE.position) = tb.(body).(CANNON.position)
  /\ m.(THREE.quaternion) = tb.(body).(CANNON.quaternion).
Proof.
  unfold syncMesh. destruct (userData tb) as [m0|] eqn:Hu;
    [|rewrite Hu; discriminate].
  simpl. intros H. injection H as <-. simpl. split.
  - unfold cannonToThreeVector. now destruct (CANNON.position (body tb)).
  - now destruct (CANNON.quaternion (body tb)).
Qed.

(** [PhysicsWorld.update] after the step: when the engine's step returns,
    the bodies are exactly as the engine left them, every body that has a
    mesh has that mesh at its own position and orientation, and a body
    without mesh stays without; when the step raises, the bodies are left as
    they were at that point and no mesh is written.  The spring listeners
    are never touched. *)
Theorem update_syncs_meshes
        (step : JSNumber -> list Tracked -> Outcome) (deltaTime : JSNumber) (w : t) :
  let w' := stepAndSync step deltaTime w in
  w'.(postStep) = w.(postStep)
  /\ (forall bs, step deltaTime w.(bodies) = Returned bs ->
                 map body w'.(bodies) = map body bs
                 /\ (forall tb m, In tb w'.(bodies) -> tb.(userData) = Some m ->
                                  m.(THREE.position) = tb.(body).(CANNON.position)
                                  /\ m.(THREE.quaternion) = tb.(body).(CANNON.quaternion))
                 /\ map (fun tb => match tb.(userData) with Some _ => true | None => false end)
                        w'.(bodies)
                    = map (fun tb => match tb.(userData) with Some _ => true | None => false end)
                          bs)
  /\ (forall bs, step deltaTime w.(bodies) = Threw bs -> w'.(bodies) = bs).
Proof.
  intros w'. unfold w', stepAndSync. split; [|split].
  - destruct (step deltaTime (bodies w)); reflexivity.
  - intros bs ->. simpl. split; [|split].
    + rewrite map_map. apply map_ext. apply syncMesh_body.
    + intros tb m Hin Hm. apply in_map_iff in Hin. destruct Hin as (tb0 & <- & _).
      rewrite syncMesh_body. now apply syncMesh_synced.
    + rewrite map_map. apply map_ext. intros tb. unfold syncMesh.
      destruct (userData tb) eqn:Hu; simpl; [reflexivity|now rewrite Hu].
  - intros bs ->. reflexivity.
Qed.

End WorldSync.

(** ** What no event changes *)

Module Invariants.
Import Car.

Lemma meshes_reset (c : t) :
  List.length (reset c).(wheelMeshes) = List.length c.(wheelMeshes).
Proof. rewrite Layout.wheelMeshes_reset. apply length_mapi. Qed.

Lemma meshes_update (deltaTime : JSNumber) (c : t) :
  List.length (update deltaTime c).(wheelMeshes) = List.length c.(wheelMeshes).
Proof.
  unfold update.
  destruct (isNaN deltaTime || js_le0 deltaTime); [reflexivity|].
  destruct deltaTime as [|dt]; [reflexivity|].
  set (x := updateDriving dt (updateSteering dt c)).
  assert (Hx : List.length (updateWheelVisuals x).(wheelMeshes)
               = List.length c.(wheelMeshes)).
  { unfold updateWheelVisuals. cbn [wheelMeshes set_wheelMeshes].
    now rewrite length_mapi. }
  match goal with |- context [Rlt_dec ?a ?b] => destruct (Rlt_dec a b) end.
  - now rewrite meshes_reset.
  - exact Hx.
Qed.

Lemma meshes_step (c : t) (e : event) :
  List.length (step c e).(wheelMeshes) = List.length c.(wheelMeshes).
Proof.
  destruct e as [key|key| |deltaTime|f]; simpl.
  - unfold keydown.
    repeat match goal with |- context [if ?b then _ else _] => destruct b end;
      try reflexivity.
    apply meshes_reset.
  - unfold keyup.
    repeat match goal with |- context [if ?b then _ else _] => destruct b end;
      reflexivity.
  - apply meshes_reset.
  - apply meshes_update.
  - reflexivity.
Qed.

Lemma meshes_run (es : list event) (c : t) :
  List.length (run c es).(wheelMeshes) = List.length c.(wheelMeshes).
Proof.
  unfold run. revert c.
  induction es as [|e es IH]; intros c; simpl; [reflexivity|].
  now rewrite IH, meshes_step.
Qed.

(** Whatever happens to a rig after its construction (key presses and
    releases, resets, frame updates with any [deltaTime], engine steps), it
    keeps its four wheels and four wheel meshes, the wheel offsets of
    [createWheels], its eight bumper particles, the 28 springs created with
    them, and its spawn position: no event creates, removes or re-links a
    body, mesh or spring. *)
Theorem rig_structure_is_fixed (pos : Vec3) (w : PhysicsWorld.t) (es : list event) :
  let c0 := fst (new pos w) in
  let c := run c0 es in
  List.length c.(wheelBodies) = 4%nat
  /\ List.length c.(wheelMeshes) = 4%nat
  /\ c.(wheelPositions) = wheelOffsets
  /\ List.length c.(frontBumper).(PhysicsWorld.particles) = 8%nat
  /\ c.(frontBumper).(PhysicsWorld.constraints)
     = c0.(frontBumper).(PhysicsWorld.constraints)
  /\ List.length c.(frontBumper).(PhysicsWorld.constraints) = 28%nat
  /\ c.(position) = pos.
Proof.
  intros c0 c.
  pose proof (Reset.shape_run es c0) as Hshape. fold c in Hshape.
  unfold shape in Hshape. injection Hshape as Hw Hoff Hp Hpos.
  pose proof (CarFacts.constraints_run es c0) as Hcs. fold c in Hcs.
  split; [rewrite Hw; reflexivity|].
  split; [unfold c; rewrite meshes_run; reflexivity|].
  split; [rewrite Hoff; reflexivity|].
  split; [rewrite Hp; reflexivity|].
  split; [exact Hcs|].
  split; [rewrite Hcs; reflexivity|].
  rewrite Hpos. reflexivity.
Qed.

End Invariants.
